(** * Planning poker: the Firestore access layer and the room view

    A shallow embedding of [src/firebase.ts] (room lifecycle, rounds and
    votes written through the Firestore client) and of the derived state of
    the [Room] component (vote summary, round/votes effect), followed by the
    properties the specification states about them.

    Modelling conventions.
    - A JavaScript string is its sequence of code units, restricted to the
      units below 256 ([string] of [ascii]).
    - A JavaScript [number] is an IEEE-754 binary64 value ([spec_float] with
      precision 53 and maximal exponent 1024), with the arithmetic of
      [SpecFloat].
    - A Firestore document is a finite map from field names to values; the
      database is a finite map from document paths (lists of segments) to
      documents.  Identifiers handed to [doc(...)] are taken as single path
      segments.
    - An [async] function is a computation over the state of the world that
      either returns a value or throws an error message; the state reached
      when the error is thrown is kept. *)

From Stdlib Require Import ZArith NArith QArith Ascii String SpecFloat Lia.
From stdpp Require Import base option list gmap strings.

Local Open Scope string_scope.
Local Open Scope nat_scope.
Local Open Scope list_scope.

(** ** JavaScript strings *)

Module JsString.

(** ECMAScript [WhiteSpace] and [LineTerminator] code units below 256:
    TAB, LF, VT, FF, CR, SP and NBSP. *)
Definition isWhiteSpace (c : ascii) : bool :=
  let n := nat_of_ascii c in
  ((9 <=? n) && (n <=? 13)) || (n =? 32) || (n =? 160).

Fixpoint trimStart (s : string) : string :=
  match s with
  | String c s' => if isWhiteSpace c then trimStart s' else s
  | EmptyString => EmptyString
  end.

Fixpoint trimEnd (s : string) : string :=
  match s with
  | String c s' =>
      match trimEnd s' with
      | EmptyString => if isWhiteSpace c then EmptyString else String c EmptyString
      | t => String c t
      end
  | EmptyString => EmptyString
  end.

(** [s.trim()] *)
Definition trim (s : string) : string := trimEnd (trimStart s).

Fixpoint startsWith (s prefix : string) : bool :=
  match prefix, s with
  | EmptyString, _ => true
  | String a p', String b s' => Ascii.eqb a b && startsWith s' p'
  | String _ _, EmptyString => false
  end.

(** [s.includes(needle)] *)
Fixpoint includes (s needle : string) : bool :=
  startsWith s needle ||
  match s with
  | String _ s' => includes s' needle
  | EmptyString => false
  end.

(** [s || fallback]: the empty string is the only falsy string. *)
Definition orElse (s fallback : string) : string :=
  match s with
  | EmptyString => fallback
  | _ => s
  end.

(** Every code unit of [s] is white space. *)
Fixpoint blank (s : string) : bool :=
  match s with
  | String c s' => isWhiteSpace c && blank s'
  | EmptyString => true
  end.

(** The ASCII fragment of [toUpperCase]: [a]..[z] to [A]..[Z]. *)
Definition upperAscii (c : ascii) : ascii :=
  let n := nat_of_ascii c in
  if (97 <=? n) && (n <=? 122) then ascii_of_nat (n - 32) else c.

Fixpoint toUpperAscii (s : string) : string :=
  match s with
  | String c s' => String (upperAscii c) (toUpperAscii s')
  | EmptyString => EmptyString
  end.

End JsString.

(** ** JavaScript numbers *)

Module JsNumber.

Definition prec : Z := 53.
Definition emax : Z := 1024.

Abbreviation number := spec_float.

Definition ofZ (z : Z) : number := binary_normalize prec emax z 0 false.
Definition ofNat (n : nat) : number := ofZ (Z.of_nat n).
Definition add : number -> number -> number := SFadd prec emax.
Definition div : number -> number -> number := SFdiv prec emax.

(** The rational a finite number stands for, in lowest terms. *)
Definition toQ (x : number) : option Q :=
  match x with
  | S754_zero _ => Some 0%Q
  | S754_finite s m e =>
      let q := Qred (inject_Z (Z.pos m) * Qpower 2 e)%Q in
      Some (if s then Qopp q else q)
  | S754_infinity _ | S754_nan => None
  end.

Definition isNaN (x : number) : bool :=
  match x with S754_nan => true | _ => false end.

End JsNumber.
Import JsNumber.

(** ** The document store *)

(** Field values.  [VServerTimestamp] is the [serverTimestamp()] sentinel a
    client sends; the store replaces it by the time of the write. *)
Inductive Value :=
| VNull
| VBool (b : bool)
| VStr (s : string)
| VNum (x : number)
| VTime (t : nat)
| VServerTimestamp.

Abbreviation Doc := (gmap string Value).
Abbreviation Path := (list string).
Abbreviation Store := (gmap (list string) (gmap string Value)).

(** An object literal. *)
Definition obj (fields : list (string * Value)) : Doc := list_to_map fields.

(** JavaScript truthiness of a field read ([None] is [undefined]). *)
Definition truthy (v : option Value) : bool :=
  match v with
  | None | Some VNull => false
  | Some (VBool b) => b
  | Some (VStr s) => negb (String.eqb s "")
  | Some (VNum x) =>
      match x with
      | S754_zero _ | S754_nan => false
      | _ => true
      end
  | Some (VTime _) | Some VServerTimestamp => true
  end.

(** The write requests of the Firestore client used by the program. *)
Inductive Write :=
| WSet (p : Path) (data : Doc)       (* setDoc(ref, data) *)
| WMerge (p : Path) (data : Doc)     (* setDoc(ref, data, { merge: true }) *)
| WUpdate (p : Path) (data : Doc)    (* updateDoc(ref, data) *)
| WCreate (p : Path) (data : Doc)    (* addDoc(coll, data), at the path of the fresh reference *)
| WDelete (p : Path).                (* deleteDoc(ref) *)

Inductive Result (A : Type) :=
| Ok (a : A)
| Err (message : string).
Arguments Ok {A} a.
Arguments Err {A} message.

Definition resolve (t : nat) (v : Value) : Value :=
  match v with
  | VServerTimestamp => VTime t
  | _ => v
  end.

Definition notFound : string := "No document to update".
Definition alreadyExists : string := "Document already exists".

(** What the store does with a write it accepts at time [t]: [setDoc]
    replaces the document; a merge and an update overwrite the given fields
    and keep the others; an update needs the document to exist; [addDoc]
    writes under the precondition that no document exists at the reference
    it generated; [deleteDoc] removes the document (also when it is
    absent). *)
Definition commit (t : nat) (w : Write) (s : Store) : Result Store :=
  match w with
  | WSet p data => Ok (<[p := resolve t <$> data]> s)
  | WMerge p data => Ok (<[p := (resolve t <$> data) ∪ default ∅ (s !! p)]> s)
  | WUpdate p data =>
      match s !! p with
      | Some old => Ok (<[p := (resolve t <$> data) ∪ old]> s)
      | None => Err notFound
      end
  | WCreate p data =>
      match s !! p with
      | Some _ => Err alreadyExists
      | None => Ok (<[p := resolve t <$> data]> s)
      end
  | WDelete p => Ok (delete p s)
  end.

(** The documents of a collection, by document id. *)
Definition childId (coll p : Path) : option string :=
  match last p with
  | Some id => if decide (p = coll ++ [id]) then Some id else None
  | None => None
  end.

Definition docsIn (coll : Path) (s : Store) : gmap string (gmap string Value) :=
  map_fold (fun p d acc =>
              match childId coll p with
              | Some id => <[id := d]> acc
              | None => acc
              end) ∅ s.

(** ** The world a client runs in *)

(** A result of [Math.random()]: the double [numer / 2^expo], which lies in
    the interval [0, 1). *)
Record Draw := {
  numer : N;
  expo : N;
  draw_lt : (numer <? 2 ^ expo)%N = true
}.

(** What the program does not decide: the host's [toUpperCase], the results
    of [Math.random()], the ids [addDoc] generates, the result of
    [signInAnonymously], the server's clock, and whether the store rejects
    a request (access rules, transport), with the message of the error.
    The oracles are indexed by the number of steps taken so far. *)
Record Env := {
  toUpperCase : string -> string;
  random : nat -> Draw;
  autoId : nat -> string;
  signIn : Result string;
  now : nat -> nat;
  verdict : nat -> Store -> Write -> option string
}.

Record World := {
  docs : Store;                 (* the database *)
  currentUser : option string;  (* auth.currentUser, by uid *)
  ticks : nat;                  (* steps taken so far *)
  journal : list Write          (* the writes the store committed, oldest first *)
}.

Definition tick (w : World) : World :=
  {| docs := docs w; currentUser := currentUser w;
     ticks := S (ticks w); journal := journal w |}.

Definition signedIn (uid : string) (w : World) : World :=
  {| docs := docs w; currentUser := Some uid;
     ticks := ticks w; journal := journal w |}.

Definition committed (wr : Write) (s : Store) (w : World) : World :=
  {| docs := s; currentUser := currentUser w;
     ticks := S (ticks w); journal := journal w ++ [wr] |}.

(** ** Asynchronous computations *)

Definition M (A : Type) : Type := World -> Result A * World.

Definition ret {A} (a : A) : M A := fun w => (Ok a, w).

Definition throw {A} (message : string) : M A := fun w => (Err message, w).

Definition bind {A B} (m : M A) (k : A -> M B) : M B :=
  fun w =>
    match m w with
    | (Ok a, w') => k a w'
    | (Err e, w') => (Err e, w')
    end.

(** [try { m } catch (e) { h (e.message) }] *)
Definition catch {A} (m : M A) (h : string -> M A) : M A :=
  fun w =>
    match m w with
    | (Ok a, w') => (Ok a, w')
    | (Err e, w') => h e w'
    end.

Declare Scope async_scope.
Delimit Scope async_scope with async.
Notation "x <- m ;; k" := (bind m (fun x => k))
  (at level 100, m at next level, right associativity) : async_scope.
Notation "m ;; k" := (bind m (fun _ => k))
  (at level 100, right associativity) : async_scope.
Local Open Scope async_scope.

Section Client.

Context (env : Env).

(** [Math.random()] *)
Definition mathRandom : M Draw :=
  fun w => (Ok (random env (ticks w)), tick w).

(** One request to the store: rejected with the store's message, or
    committed at the server's time. *)
Definition request (wr : Write) : M unit :=
  fun w =>
    match verdict env (ticks w) (docs w) wr with
    | Some message => (Err message, tick w)
    | None =>
        match commit (now env (ticks w)) wr (docs w) with
        | Ok s => (Ok tt, committed wr s w)
        | Err message => (Err message, tick w)
        end
    end.

Definition setDoc (p : Path) (data : Doc) : M unit := request (WSet p data).
Definition setDocMerge (p : Path) (data : Doc) : M unit := request (WMerge p data).
Definition updateDoc (p : Path) (data : Doc) : M unit := request (WUpdate p data).
Definition deleteDoc (p : Path) : M unit := request (WDelete p).

(** [addDoc(coll, data)] returns the reference it generated, here its id. *)
Definition addDoc (coll : Path) (data : Doc) : M string :=
  fun w =>
    let id := autoId env (ticks w) in
    bind (request (WCreate (coll ++ [id]) data)) (fun _ => ret id) (tick w).

(** [ensureAnonAuth]: the current user, or else the user anonymous sign-in
    yields, who becomes the current user. *)
Definition ensureAnonAuth : M string :=
  fun w =>
    match currentUser w with
    | Some uid => (Ok uid, w)
    | None =>
        match signIn env with
        | Ok uid => (Ok uid, signedIn uid w)
        | Err message => (Err message, w)
        end
    end.

(** *** Paths *)

Definition roomPath (code : string) : Path := ["rooms"; code].
Definition participantPath (code uid : string) : Path :=
  ["rooms"; code; "participants"; uid].
Definition participantsPath (code : string) : Path :=
  ["rooms"; code; "participants"].
Definition roundsPath (code : string) : Path := ["rooms"; code; "rounds"].
Definition roundPath (code roundId : string) : Path :=
  ["rooms"; code; "rounds"; roundId].
Definition votesPath (code roundId : string) : Path :=
  ["rooms"; code; "rounds"; roundId; "votes"].
Definition votePath (code roundId uid : string) : Path :=
  ["rooms"; code; "rounds"; roundId; "votes"; uid].

(** *** Room codes *)

Definition normalizeRoomCode (code : string) : string :=
  toUpperCase env (JsString.trim code).

Definition chars : string := "ABCDEFGHJKLMNPQRSTUVWXYZ23456789".

(** [Math.floor(r * chars.length)] for the draw [r]; the product of a double
    below 1 by 32 is exact. *)
Definition pick (r : Draw) : N :=
  (numer r * N.of_nat (String.length chars) / 2 ^ expo r)%N.

(** [out + chars[i]]: an index outside the string reads [undefined]. *)
Definition appendCharAt (out : string) (i : N) : string :=
  match String.get (N.to_nat i) chars with
  | Some c => out +:+ String c EmptyString
  | None => out +:+ "undefined"
  end.

(** The loop [for (let i = 0; i < 4; i++) out += ...], with [todo = 4 - i]. *)
Fixpoint generateRoomCode_from (todo : nat) (out : string) : M string :=
  match todo with
  | S todo' =>
      r <- mathRandom ;;
      generateRoomCode_from todo' (appendCharAt out (pick r))
  | O => ret out
  end.

Definition generateRoomCode : M string := generateRoomCode_from 4 "".

(** *** Room lifecycle *)

Definition permissionDenied : string := "Missing or insufficient permissions".
Definition creationExhausted : string :=
  "Failed to create a unique room code. Please try again.".
Definition roomNotFound : string := "Room not found.".

Definition participantDoc (uid name : string) : Doc :=
  obj [("uid", VStr uid);
       ("name", VStr (JsString.orElse (JsString.trim name) "Guest"));
       ("joinedAt", VServerTimestamp);
       ("lastSeenAt", VServerTimestamp)].

Definition roomDoc (code uid : string) : Doc :=
  obj [("code", VStr code);
       ("createdAt", VServerTimestamp);
       ("createdBy", VStr uid);
       ("currentRoundId", VNull);
       ("updatedAt", VServerTimestamp)].

(** The loop [for (let attempt = 0; attempt < 10; attempt++)] of
    [createRoom], with [todo = 10 - attempt]; falling out of the loop
    reaches the final [throw]. *)
Fixpoint createRoom_from (todo attempt : nat) (uid name : string) : M string :=
  match todo with
  | S todo' =>
      code <- generateRoomCode ;;
      catch
        (setDoc (roomPath code) (roomDoc code uid) ;;
         setDocMerge (participantPath code uid) (participantDoc uid name) ;;
         ret code)
        (fun msg =>
           if JsString.includes msg permissionDenied && (attempt <? 9)
           then createRoom_from todo' (S attempt) uid name
           else throw msg)
  | O => throw creationExhausted
  end.

Definition createRoom (name : string) : M string :=
  uid <- ensureAnonAuth ;;
  createRoom_from 10 0 uid name.

Definition joinRoom (code name : string) : M unit :=
  uid <- ensureAnonAuth ;;
  let code := normalizeRoomCode code in
  catch
    (setDocMerge (participantPath code uid) (participantDoc uid name))
    (fun msg =>
       if JsString.includes msg permissionDenied
       then throw roomNotFound
       else throw msg).

Definition touchPresence (code : string) : M unit :=
  uid <- ensureAnonAuth ;;
  setDocMerge (participantPath (normalizeRoomCode code) uid)
    (obj [("lastSeenAt", VServerTimestamp)]).

Definition leaveRoom (code : string) : M unit :=
  uid <- ensureAnonAuth ;;
  deleteDoc (participantPath (normalizeRoomCode code) uid).

(** *** Rounds and votes *)

Definition roundDoc (uid ticket : string) : Doc :=
  obj [("createdAt", VServerTimestamp);
       ("createdBy", VStr uid);
       ("ticket", VStr (JsString.trim ticket));
       ("revealed", VBool false)].

Definition roomUpdate (roundId : Value) : Doc :=
  obj [("currentRoundId", roundId); ("updatedAt", VServerTimestamp)].

Definition startRound (code ticket : string) : M string :=
  uid <- ensureAnonAuth ;;
  let code := normalizeRoomCode code in
  roundId <- addDoc (roundsPath code) (roundDoc uid ticket) ;;
  updateDoc (roomPath code) (roomUpdate (VStr roundId)) ;;
  ret roundId.

Definition revealRound (code roundId : string) : M unit :=
  let code := normalizeRoomCode code in
  updateDoc (roundPath code roundId) (obj [("revealed", VBool true)]).

Definition clearCurrentRound (code : string) : M unit :=
  let code := normalizeRoomCode code in
  updateDoc (roomPath code) (roomUpdate VNull).

Definition voteDoc (uid : string) (value : number) : Doc :=
  obj [("uid", VStr uid); ("value", VNum value); ("createdAt", VServerTimestamp)].

Definition castVote (code roundId : string) (value : number) : M unit :=
  uid <- ensureAnonAuth ;;
  let code := normalizeRoomCode code in
  setDoc (votePath code roundId uid) (voteDoc uid value).

End Client.

(** ** The room view *)

Module RoomView.

Record VoteDoc := {
  uid : string;
  value : number;
  createdAt : Value
}.

(** A JavaScript [Map] with string keys: its entries in insertion order,
    each key once. *)
Abbreviation JsMap A := (list (string * A)).

(** [m.set(k, v)]: an existing key keeps its position. *)
Fixpoint mapSet {A} (m : JsMap A) (k : string) (v : A) : JsMap A :=
  match m with
  | (k', v') :: m' =>
      if String.eqb k' k then (k', v) :: m' else (k', v') :: mapSet m' k v
  | [] => [(k, v)]
  end.

Fixpoint mapGet {A} (m : JsMap A) (k : string) : option A :=
  match m with
  | (k', v') :: m' => if String.eqb k' k then Some v' else mapGet m' k
  | [] => None
  end.

Definition mapValues {A} (m : JsMap A) : list A := map snd m.
Definition mapSize {A} (m : JsMap A) : nat := length m.

Record Summary := {
  avg : option number;  (* [None] is [null] *)
  count : nat
}.

(** The [summary] memo; [None] is [null]. *)
Definition summary (votes : JsMap VoteDoc) (revealed : bool) : option Summary :=
  if negb revealed then None
  else
    let vals := map value (mapValues votes) in
    if length vals =? 0 then Some {| avg := None; count := 0 |}
    else
      let sum := fold_left add vals (ofZ 0) in
      let avg := div sum (ofNat (length vals)) in
      Some {| avg := Some avg; count := length vals |}.

(** The state of the component that the store feeds. *)
Record View := {
  room : option Doc;
  participants : list Doc;
  round : option (string * Doc);  (* the round document with its id *)
  votes : JsMap VoteDoc;
  err : option string
}.

(** [!!round?.revealed] *)
Definition revealed (v : View) : bool :=
  match round v with
  | Some (_, d) => truthy (d !! "revealed")
  | None => false
  end.

(** [d.data() as VoteDoc]: the fields the type names, as [castVote] writes
    them. *)
Definition asVoteDoc (d : Doc) : VoteDoc :=
  {| uid := match d !! "uid" with Some (VStr s) => s | _ => "" end;
     value := match d !! "value" with Some (VNum x) => x | _ => S754_nan end;
     createdAt := default VNull (d !! "createdAt") |}.

(** The room listener: [snap] is [None] when the document does not exist. *)
Definition onRoomSnapshot (snap : option Doc) (v : View) : View :=
  match snap with
  | None =>
      {| room := None; participants := participants v; round := round v;
         votes := votes v;
         err := Some "Room not found or you do not have access." |}
  | Some data =>
      {| room := Some data; participants := participants v; round := round v;
         votes := votes v; err := err v |}
  end.

Definition onParticipantsSnapshot (snap : list (string * Doc)) (v : View) : View :=
  {| room := room v; participants := map snd snap; round := round v;
     votes := votes v; err := err v |}.

(** [room?.currentRoundId] *)
Definition currentRoundId (v : View) : option Value :=
  match room v with
  | Some data => data !! "currentRoundId"
  | None => None
  end.

(** The round and votes effect, run when [code] or [room?.currentRoundId]
    changes: without a current round it clears the round and the votes;
    otherwise it subscribes the two listeners below. *)
Definition roundEffect (code : string) (v : View) : View :=
  if String.eqb code "" || negb (truthy (currentRoundId v)) then
    {| room := room v; participants := participants v; round := None;
       votes := []; err := err v |}
  else v.

Definition onRoundSnapshot (id : string) (snap : option Doc) (v : View) : View :=
  {| room := room v; participants := participants v;
     round := match snap with Some data => Some (id, data) | None => None end;
     votes := votes v; err := err v |}.

Definition onVotesSnapshot (snap : list (string * Doc)) (v : View) : View :=
  {| room := room v; participants := participants v; round := round v;
     votes := fold_left (fun m d => mapSet m (fst d) (asVoteDoc (snd d))) snap [];
     err := err v |}.

(** What [onReset] does to the view once [clearCurrentRound] has resolved. *)
Definition onResetDone (v : View) : View :=
  {| room := room v; participants := participants v; round := None;
     votes := []; err := err v |}.

End RoomView.

(** ** A sample environment *)

Module Sample.

(** Modelled from the spec: the access rules of the store, which the
    repository keeps outside [src/].  A room document is create-only (a
    write over an existing room is refused) and a participant is written
    only under an existing room; a refused write fails with the store's
    permission message. *)
Definition rules (s : Store) (wr : Write) : option string :=
  match wr with
  | WSet ["rooms"; code] _ =>
      match s !! roomPath code with
      | Some _ => Some "Missing or insufficient permissions."
      | None => None
      end
  | WMerge ["rooms"; code; "participants"; _] _ =>
      match s !! roomPath code with
      | Some _ => None
      | None => Some "Missing or insufficient permissions."
      end
  | _ => None
  end.

Definition quarter : Draw := {| numer := 1; expo := 2; draw_lt := eq_refl |}.
Definition sevenEighths : Draw := {| numer := 7; expo := 3; draw_lt := eq_refl |}.

Definition env : Env :=
  {| toUpperCase := JsString.toUpperAscii;
     random := fun n => if Nat.even n then quarter else sevenEighths;
     autoId := fun n => "round-" +:+ String (ascii_of_nat (65 + n mod 26)) EmptyString;
     signIn := Ok "anon";
     now := fun n => 1000 + n;
     verdict := fun _ => rules |}.

(** The same store with a server that is out of reach for every request
    from step [n] on. *)
Definition offlineFrom (n : nat) : Env :=
  {| toUpperCase := toUpperCase env;
     random := random env;
     autoId := autoId env;
     signIn := signIn env;
     now := now env;
     verdict := fun k s wr => if n <=? k then Some "unavailable" else rules s wr |}.

Definition world0 : World :=
  {| docs := ∅; currentUser := None; ticks := 0; journal := [] |}.

End Sample.

(** ** The average as the specification words it *)

Module Mean.
Import RoomView.

(** The summary the component shows for a view. *)
Definition viewSummary (v : View) : option Summary :=
  summary (votes v) (revealed v).

(** The exact sum of finite numbers, as a rational. *)
Fixpoint sumQ (vals : list number) : option Q :=
  match vals with
  | x :: rest =>
      match toQ x, sumQ rest with
      | Some q, Some t => Some (Qplus q t)
      | _, _ => None
      end
  | [] => Some 0%Q
  end.

(** sum(values) / count as an exact rational. *)
Definition exactMean (votes : JsMap VoteDoc) : option Q :=
  match sumQ (map value (mapValues votes)) with
  | Some s => Some (Qdiv s (inject_Z (Z.of_nat (mapSize votes))))
  | None => None
  end.

(** The reported average of a revealed round is that exact rational. *)
Definition averageIsExact (votes : JsMap VoteDoc) : Prop :=
  forall s a q,
    summary votes true = Some s -> avg s = Some a -> exactMean votes = Some q ->
    exists q', toQ a = Some q' /\ Qeq q' q.

(** The vote document [castVote] leaves for [uid] and an integer card. *)
Definition card (uid : string) (z : Z) : string * VoteDoc :=
  (uid, {| uid := uid; value := ofZ z; createdAt := VTime 0 |}).

End Mean.

(** ** Vocabulary of the properties *)

(** A symbol of the room-code alphabet. *)
Definition inAlphabet (c : ascii) : Prop := In c (list_ascii_of_string chars).

Definition ambiguousGlyph (c : ascii) : bool :=
  existsb (Ascii.eqb c) (list_ascii_of_string "0O1I").

Definition upperOrDigit (c : ascii) : bool :=
  let n := nat_of_ascii c in
  ((65 <=? n) && (n <=? 90)) || ((48 <=? n) && (n <=? 57)).

(** The name [createRoom] and [joinRoom] store for the input [name]. *)
Definition storedName (name : string) : string :=
  if JsString.blank name then "Guest" else JsString.trim name.

(** A call that fails leaves the database as it was. *)
Definition failureKeepsStore {A} (m : M A) (w : World) : Prop :=
  forall e, fst (m w) = Err e -> docs (snd (m w)) = docs w.


(** The store's contract for a request under the room [code]: it is refused
    exactly when the room document is absent, and then with a permission
    failure. *)
Definition requiresRoom (env : Env) (w : World) (code : string) (wr : Write) : Prop :=
  match verdict env (ticks w) (docs w) wr with
  | None => is_Some (docs w !! roomPath code)
  | Some message =>
      docs w !! roomPath code = None
      /\ JsString.includes message permissionDenied = true
  end.

(** The clients signed in as the given uids cast their values on a round,
    one call of [castVote] after the other; the result lists the ballots
    the store accepted. *)
Fixpoint castAll (env : Env) (code roundId : string)
    (ballots : list (string * number)) (w : World) : list (string * number) * World :=
  match ballots with
  | (uid, value) :: rest =>
      match castVote env code roundId value (signedIn uid w) with
      | (Ok _, w') =>
          let (accepted, final) := castAll env code roundId rest w' in
          ((uid, value) :: accepted, final)
      | (Err _, w') => castAll env code roundId rest w'
      end
  | [] => ([], w)
  end.

(** The value of the last ballot of [uid]. *)
Fixpoint lastValue (uid : string) (ballots : list (string * number)) : option number :=
  match ballots with
  | (u, v) :: rest =>
      match lastValue uid rest with
      | Some v' => Some v'
      | None => if String.eqb u uid then Some v else None
      end
  | [] => None
  end.

(** Every document of the collection names its own key as its [uid]. *)
Definition keyedByUid (coll : gmap string (gmap string Value)) : Prop :=
  forall id d, coll !! id = Some d -> d !! "uid" = Some (VStr id).

(** ** Sessions *)

(** The operations of the access layer. *)
Inductive Op :=
| CreateRoom (name : string)
| JoinRoom (code name : string)
| TouchPresence (code : string)
| LeaveRoom (code : string)
| StartRound (code ticket : string)
| RevealRound (code roundId : string)
| ClearCurrentRound (code : string)
| CastVote (code roundId : string) (value : number).

(** The world after a call, whatever its outcome. *)
Definition run (env : Env) (op : Op) (w : World) : World :=
  match op with
  | CreateRoom name => snd (createRoom env name w)
  | JoinRoom code name => snd (joinRoom env code name w)
  | TouchPresence code => snd (touchPresence env code w)
  | LeaveRoom code => snd (leaveRoom env code w)
  | StartRound code ticket => snd (startRound env code ticket w)
  | RevealRound code roundId => snd (revealRound env code roundId w)
  | ClearCurrentRound code => snd (clearCurrentRound env code w)
  | CastVote code roundId value => snd (castVote env code roundId value w)
  end.

(** The client of a call: its environment and its [auth.currentUser]. *)
Record Client := {
  clientEnv : Env;
  clientUser : option string
}.

Definition asClient (c : Client) (w : World) : World :=
  {| docs := docs w; currentUser := clientUser c;
     ticks := ticks w; journal := journal w |}.

(** Calls made one after the other by any clients on the shared database. *)
Fixpoint session (calls : list (Client * Op)) (w : World) : World :=
  match calls with
  | (c, op) :: rest => session rest (run (clientEnv c) op (asClient c w))
  | [] => w
  end.

(** The round document exists and its [revealed] field is [true]. *)
Definition revealedRound (s : Store) (code roundId : string) : Prop :=
  exists d, s !! roundPath code roundId = Some d
            /\ d !! "revealed" = Some (VBool true).

Definition isRoundPath (p : Path) : bool :=
  match p with
  | ["rooms"; _; "rounds"; _] => true
  | _ => false
  end.

(** The writes that cannot take back a reveal: the creation of a document,
    an update of a round that sets [revealed] to [true] or leaves it out,
    and any write to a document that is not a round. *)
Definition keepsRevealed (wr : Write) : bool :=
  match wr with
  | WCreate _ _ => true
  | WUpdate p data =>
      negb (isRoundPath p) ||
      match data !! "revealed" with
      | None | Some (VBool true) => true
      | Some _ => false
      end
  | WSet p _ | WMerge p _ | WDelete p => negb (isRoundPath p)
  end.

(** [evolves P w w']: the database and the journal of [w'] come from those
    of [w] by commits of writes that satisfy [P]. *)
Inductive evolves (P : Write -> bool) (w : World) : World -> Prop :=
| evolves_same (w' : World) :
    docs w' = docs w -> journal w' = journal w -> evolves P w w'
| evolves_commit (w1 w' : World) (wr : Write) (t : nat) :
    evolves P w w1 ->
    P wr = true ->
    commit t wr (docs w1) = Ok (docs w') ->
    journal w' = journal w1 ++ [wr] ->
    evolves P w w'.

(** Every write a computation commits satisfies [P]. *)
Definition writesOnly (P : Write -> bool) {A} (m : M A) : Prop :=
  forall w, evolves P w (snd (m w)).

(** ** A sample session *)

Module Scenario.

(** The world once "Ann" has created a room in the sample environment: the
    room has the code J6J6 and its host the uid "host". *)
Definition room1 : World :=
  snd (createRoom Sample.env "Ann" (signedIn "host" Sample.world0)).

(** "Bo" joins the room from another client. *)
Definition joined : World := snd (joinRoom Sample.env " j6j6 " "Bo" (signedIn "bo" room1)).

(** The host opens a round; the store names it "round-H". *)
Definition round1 : World :=
  snd (startRound Sample.env "J6J6" "AUTH-123" (signedIn "host" joined)).

(** The host votes 3 and Bo votes 5. *)
Definition voted : World :=
  snd (castVote Sample.env "J6J6" "round-H" (ofZ 5)
         (signedIn "bo"
            (snd (castVote Sample.env "J6J6" "round-H" (ofZ 3) round1)))).

(** The host reveals the round. *)
Definition shown : World :=
  snd (revealRound Sample.env "J6J6" "round-H" (signedIn "host" voted)).

(** Bo creates a second room: the first code generated collides with the
    room of Ann, the next one, 6J6J, is free. Every code the sample
    environment generates is J6J6 or 6J6J. *)
Definition crowded : World := snd (createRoom Sample.env "Bo" (signedIn "bo" room1)).

Definition host : Client := {| clientEnv := Sample.env; clientUser := Some "host" |}.
Definition bo : Client := {| clientEnv := Sample.env; clientUser := Some "bo" |}.
Definition newcomer : Client := {| clientEnv := Sample.env; clientUser := None |}.

End Scenario.

(** ** The screens *)

(** Where [nav] leads: the lobby, with the room code to pre-fill when the
    link carries one, or the room of a code, with the navigation state
    [{ joined: true }] when the navigation came from within the app. *)
Inductive Route :=
| ToLobby (prefill : option string)
| ToRoom (code : string) (joined : bool).

(** [e?.message || fallback] *)
Definition messageOr (message fallback : string) : string :=
  JsString.orElse message fallback.

Module RoomScreen.
Import RoomView.

(** The state of the [Room] component: the view the listeners feed, the
    uid of the signed-in user, the ticket field, and the last navigation. *)
Record Screen := {
  view : View;
  uid : option string;
  ticket : string;
  route : option Route
}.

Definition setErr (e : option string) (s : Screen) : Screen :=
  {| view := {| room := room (view s); participants := participants (view s);
                round := round (view s); votes := votes (view s); err := e |};
     uid := uid s; ticket := ticket s; route := route s |}.

Definition setTicket (t : string) (s : Screen) : Screen :=
  {| view := view s; uid := uid s; ticket := t; route := route s |}.

Definition setView (v : View) (s : Screen) : Screen :=
  {| view := v; uid := uid s; ticket := ticket s; route := route s |}.

Definition navigate (r : Route) (s : Screen) : Screen :=
  {| view := view s; uid := uid s; ticket := ticket s; route := Some r |}.

(** The deep-link effect: without [{ joined: true }] in the navigation
    state the component sends the user to the lobby with the code. *)
Definition deepLinkEffect (code : string) (joined : bool) (s : Screen) : Screen :=
  if joined then s else navigate (ToLobby (Some code)) s.

(** [isOwner]: a room, a non-empty uid, and [room.createdBy === uid]. *)
Definition isOwner (s : Screen) : bool :=
  match room (view s), uid s with
  | Some data, Some u =>
      if String.eqb u "" then false
      else match data !! "createdBy" with
           | Some (VStr creator) => String.eqb creator u
           | _ => false
           end
  | _, _ => false
  end.

(** [myVote]: [votes.get(uid)?.value ?? null] *)
Definition myVote (s : Screen) : option number :=
  match uid s with
  | Some u =>
      if String.eqb u "" then None
      else match mapGet (votes (view s)) u with
           | Some v => Some (value v)
           | None => None
           end
  | None => None
  end.

Definition onLeave (env : Env) (code : string) (s : Screen) (w : World) : Screen * World :=
  (navigate (ToLobby None) s, snd (leaveRoom env code w)).

Definition onStartRound (env : Env) (code : string) (s : Screen) (w : World)
  : Screen * World :=
  if negb (isOwner s) then (s, w)
  else
    match startRound env code (ticket s) w with
    | (Ok _, w') => (setTicket "" (setErr None s), w')
    | (Err e, w') => (setErr (Some (messageOr e "Failed to start round.")) s, w')
    end.

Definition onReveal (env : Env) (code : string) (s : Screen) (w : World)
  : Screen * World :=
  match round (view s) with
  | Some (roundId, _) =>
      if negb (isOwner s) then (s, w)
      else
        match revealRound env code roundId w with
        | (Ok _, w') => (setErr None s, w')
        | (Err e, w') => (setErr (Some (messageOr e "Failed to reveal.")) s, w')
        end
  | None => (s, w)
  end.

Definition onReset (env : Env) (code : string) (s : Screen) (w : World)
  : Screen * World :=
  if negb (isOwner s) then (s, w)
  else
    match clearCurrentRound env code w with
    | (Ok _, w') => (setView (onResetDone (view (setErr None s))) s, w')
    | (Err e, w') => (setErr (Some (messageOr e "Failed to reset.")) s, w')
    end.

Definition onVote (env : Env) (code : string) (v : number) (s : Screen) (w : World)
  : Screen * World :=
  match round (view s) with
  | Some (roundId, _) =>
      if revealed (view s) then (s, w)
      else
        match castVote env code roundId v w with
        | (Ok _, w') => (setErr None s, w')
        | (Err e, w') => (setErr (Some (messageOr e "Failed to vote.")) s, w')
        end
  | None => (s, w)
  end.

End RoomScreen.

Module HomeScreen.

(** The state of the [Home] component, with the [pp_name] entry of the
    local storage and the last navigation. *)
Record Home := {
  name : string;
  code : string;
  err : option string;
  busy : bool;
  savedName : option string;
  route : option Route
}.

(** [canProceed]: [name.trim().length > 0] *)
Definition canProceed (h : Home) : bool :=
  negb (String.length (JsString.trim (name h)) =? 0).

Definition finish (h : Home) (e : option string) (r : option Route) : Home :=
  {| name := name h; code := code h; err := e; busy := false;
     savedName := Some (JsString.trim (name h));
     route := match r with Some _ => r | None => route h end |}.

Definition clearErr (h : Home) : Home :=
  {| name := name h; code := code h; err := None; busy := busy h;
     savedName := savedName h; route := route h |}.

Definition onCreate (env : Env) (h : Home) (w : World) : Home * World :=
  if negb (canProceed h) then (clearErr h, w)
  else
    match createRoom env (name h) w with
    | (Ok roomCode, w') => (finish h None (Some (ToRoom roomCode true)), w')
    | (Err e, w') => (finish h (Some (messageOr e "Failed to create room.")) None, w')
    end.

Definition onJoin (env : Env) (h : Home) (w : World) : Home * World :=
  if negb (canProceed h) then (clearErr h, w)
  else
    let roomCode := normalizeRoomCode env (code h) in
    match joinRoom env roomCode (name h) w with
    | (Ok _, w') => (finish h None (Some (ToRoom roomCode true)), w')
    | (Err e, w') => (finish h (Some (messageOr e "Failed to join room.")) None, w')
    end.

End HomeScreen.

(** ** Chosen draws *)

(** The draw [i / 32] for an index below 32 (and 0 otherwise). *)
Definition drawAt (i : nat) : Draw :=
  match Bool.bool_dec (N.of_nat i <? 2 ^ 5)%N true with
  | left H => {| numer := N.of_nat i; expo := 5; draw_lt := H |}
  | right _ => {| numer := 0; expo := 5; draw_lt := eq_refl |}
  end.

(** The environment with other results of [Math.random()]. *)
Definition withRandom (rnd : nat -> Draw) (env : Env) : Env :=
  {| toUpperCase := toUpperCase env;
     random := rnd;
     autoId := autoId env;
     signIn := signIn env;
     now := now env;
     verdict := verdict env |}.

(** The draws that are [i0/32], [i1/32], [i2/32], [i3/32] from step [start]
    on. *)
Definition drawsFrom (start i0 i1 i2 i3 : nat) (n : nat) : Draw :=
  match n - start with
  | 0 => drawAt i0
  | 1 => drawAt i1
  | 2 => drawAt i2
  | _ => drawAt i3
  end.

(** ** Sample screens *)

Module ScreenScenario.
Import RoomView RoomScreen.

(** The view before any snapshot has arrived. *)
Definition blankView : View :=
  {| room := None; participants := []; round := None; votes := []; err := None |}.

(** The screen of the host once the room document of J6J6 has arrived,
    with a ticket typed in. *)
Definition hostScreen : Screen :=
  {| view := onRoomSnapshot (docs Scenario.joined !! roomPath "J6J6") blankView;
     uid := Some "host"; ticket := " AUTH-123"; route := None |}.

(** The lobby with a name and a code typed in. *)
Definition lobby : HomeScreen.Home :=
  {| HomeScreen.name := " Bo "; HomeScreen.code := "j6j6"; HomeScreen.err := None;
     HomeScreen.busy := false; HomeScreen.savedName := None; HomeScreen.route := None |}.

End ScreenScenario.

(** * Properties *)

(** ** Strings *)

Lemma append_cons (a : ascii) (s t : string) :
  String a s +:+ t = String a (s +:+ t).
Proof. reflexivity. Qed.

Lemma append_empty_r (s : string) : s +:+ "" = s.
Proof. induction s as [|c s IH]; [reflexivity | now rewrite append_cons, IH]. Qed.

Lemma append_snoc (s t : string) (c : ascii) :
  (s +:+ String c "") +:+ t = s +:+ String c t.
Proof. induction s as [|a s IH]; [reflexivity | now rewrite !append_cons, IH]. Qed.

Lemma length_append (s t : string) :
  String.length (s +:+ t) = String.length s + String.length t.
Proof.
  induction s as [|c s IH]; [reflexivity |].
  rewrite append_cons. simpl. now rewrite IH.
Qed.

Lemma get_Some_In (s : string) (n : nat) (c : ascii) :
  String.get n s = Some c -> In c (list_ascii_of_string s).
Proof.
  revert n. induction s as [|a s IH]; intros n H; simpl in *; [discriminate |].
  destruct n as [|n]; [injection H as ->; now left | right; eauto].
Qed.

Lemma get_lt_Some (s : string) (n : nat) :
  n < String.length s -> exists c, String.get n s = Some c.
Proof.
  revert n. induction s as [|a s IH]; intros n H; simpl in *; [lia |].
  destruct n as [|n]; [eauto | apply IH; lia].
Qed.

Lemma trimStart_blank (s : string) :
  JsString.trimStart s = "" <-> JsString.blank s = true.
Proof.
  induction s as [|c s IH]; simpl; [tauto |].
  destruct (JsString.isWhiteSpace c); simpl; [exact IH |].
  split; discriminate.
Qed.

Lemma trimEnd_blank (s : string) :
  JsString.trimEnd s = "" <-> JsString.blank s = true.
Proof.
  induction s as [|c s IH]; simpl; [tauto |].
  destruct (JsString.trimEnd s) eqn:E.
  - destruct (JsString.isWhiteSpace c); simpl.
    + split; [intros _; now apply IH | reflexivity].
    + split; discriminate.
  - split; [discriminate |].
    intros H. apply andb_prop in H as [_ H]. apply IH in H. discriminate.
Qed.

Lemma trimStart_blank_blank (s : string) :
  JsString.blank (JsString.trimStart s) = JsString.blank s.
Proof.
  induction s as [|c s IH]; simpl; [reflexivity |].
  destruct (JsString.isWhiteSpace c) eqn:E; simpl; [exact IH | now rewrite E].
Qed.

(** The trimmed form is empty exactly for the empty and the all-white-space
    strings. *)
Lemma trim_empty_iff (s : string) :
  JsString.trim s = "" <-> JsString.blank s = true.
Proof.
  unfold JsString.trim. rewrite trimEnd_blank, trimStart_blank_blank. tauto.
Qed.

Example trim_sample : JsString.trim "  AUTH-123 " = "AUTH-123".
Proof. reflexivity. Qed.

Example trim_inner_space : JsString.trim " a b " = "a b".
Proof. reflexivity. Qed.

Example includes_sample :
  JsString.includes "FirebaseError: Missing or insufficient permissions." permissionDenied
  = true
  /\ JsString.includes "unavailable" permissionDenied = false.
Proof. split; reflexivity. Qed.

Example normalizeRoomCode_sample : normalizeRoomCode Sample.env " j6j6 " = "J6J6".
Proof. reflexivity. Qed.

Example generateRoomCode_sample :
  fst (generateRoomCode Sample.env Sample.world0) = Ok "J6J6".
Proof. reflexivity. Qed.

(** ** Room codes *)

Lemma pick_lt (r : Draw) : (pick r < 32)%N.
Proof.
  unfold pick. change (N.of_nat (String.length chars)) with 32%N.
  pose proof (draw_lt r) as H. apply N.ltb_lt in H.
  apply N.Div0.div_lt_upper_bound. lia.
Qed.

Lemma appendCharAt_alphabet (out : string) (i : N) :
  (i < 32)%N ->
  exists c, inAlphabet c /\ appendCharAt out i = out +:+ String c "".
Proof.
  intros Hi. unfold appendCharAt.
  destruct (get_lt_Some chars (N.to_nat i)) as [c Hc].
  { change (String.length chars) with 32. lia. }
  rewrite Hc. exists c. split; [|reflexivity].
  eapply get_Some_In; eassumption.
Qed.

Lemma generateRoomCode_from_spec (env : Env) (todo : nat) (out : string) (w : World) :
  exists suffix w',
    generateRoomCode_from env todo out w = (Ok (out +:+ suffix), w')
    /\ String.length suffix = todo
    /\ Forall inAlphabet (list_ascii_of_string suffix)
    /\ docs w' = docs w /\ currentUser w' = currentUser w
    /\ journal w' = journal w /\ ticks w' = todo + ticks w.
Proof.
  revert out w. induction todo as [|todo IH]; intros out w; simpl.
  - exists "", w. unfold ret.
    rewrite append_empty_r. repeat split; constructor.
  - unfold bind, mathRandom.
    destruct (appendCharAt_alphabet out (pick (random env (ticks w))) (pick_lt _))
      as (c & Hc & ->).
    destruct (IH (out +:+ String c "") (tick w)) as (suffix & w' & -> & Hl & Hf & Hd).
    exists (String c suffix), w'.
    repeat split; try tauto.
    + now rewrite append_snoc.
    + simpl. congruence.
    + simpl. constructor; assumption.
    + destruct Hd as (_ & _ & _ & ->). simpl. lia.
Qed.

Lemma generateRoomCode_spec (env : Env) (w : World) :
  exists code w',
    generateRoomCode env w = (Ok code, w')
    /\ String.length code = 4
    /\ Forall inAlphabet (list_ascii_of_string code)
    /\ docs w' = docs w /\ currentUser w' = currentUser w
    /\ journal w' = journal w /\ ticks w' = 4 + ticks w.
Proof.
  destruct (generateRoomCode_from_spec env 4 "" w) as (code & w' & H).
  exists code, w'. exact H.
Qed.

(** C8. Every code the generator returns has exactly four characters, each
    one a symbol of the alphabet [ABCDEFGHJKLMNPQRSTUVWXYZ23456789]; the
    alphabet has 32 distinct symbols, all upper-case letters or digits, none
    of them one of the ambiguous glyphs 0, O, 1, I. *)
Theorem generateRoomCode_format (env : Env) (w : World) :
  (exists code w',
      generateRoomCode env w = (Ok code, w')
      /\ String.length code = 4
      /\ Forall inAlphabet (list_ascii_of_string code))
  /\ chars = "ABCDEFGHJKLMNPQRSTUVWXYZ23456789"
  /\ String.length chars = 32
  /\ NoDup (list_ascii_of_string chars)
  /\ (forall c, inAlphabet c -> upperOrDigit c = true /\ ambiguousGlyph c = false).
Proof.
  split; [|split; [reflexivity | split; [reflexivity | split]]].
  - destruct (generateRoomCode_from_spec env 4 "" w) as (code & w' & H & Hl & Hf & _).
    exists code, w'. unfold generateRoomCode. rewrite H. auto.
  - apply NoDup_ListNoDup. unfold chars. simpl.
    repeat (constructor; [simpl; intuition discriminate |]). constructor.
  - intros c Hc.
    assert (forallb (fun c => upperOrDigit c && negb (ambiguousGlyph c))
              (list_ascii_of_string chars) = true) as H by reflexivity.
    rewrite forallb_forall in H. specialize (H c Hc).
    apply andb_prop in H as [H1 H2]. split; [exact H1 |].
    now destruct (ambiguousGlyph c).
Qed.

(** ** Requests *)

Section Requests.

Context (env : Env).

Lemma request_ok (wr : Write) (w w' : World) :
  request env wr w = (Ok tt, w') ->
  verdict env (ticks w) (docs w) wr = None
  /\ exists s, commit (now env (ticks w)) wr (docs w) = Ok s
               /\ w' = committed wr s w.
Proof.
  unfold request. destruct (verdict env (ticks w) (docs w) wr); [discriminate |].
  destruct (commit _ wr (docs w)) as [s|e]; [|discriminate].
  intros [= <-]. eauto.
Qed.

(** A request that fails leaves the database, the session and the journal
    as they were. *)
Lemma request_err (wr : Write) (w w' : World) (e : string) :
  request env wr w = (Err e, w') -> w' = tick w.
Proof.
  unfold request. destruct (verdict env (ticks w) (docs w) wr).
  - now intros [= _ <-].
  - destruct (commit _ wr (docs w)); [discriminate | now intros [= _ <-]].
Qed.

Lemma request_cases (wr : Write) (w : World) :
  (exists s, commit (now env (ticks w)) wr (docs w) = Ok s
             /\ verdict env (ticks w) (docs w) wr = None
             /\ request env wr w = (Ok tt, committed wr s w))
  \/ (exists e, request env wr w = (Err e, tick w)).
Proof.
  unfold request. destruct (verdict env (ticks w) (docs w) wr); [eauto |].
  destruct (commit _ wr (docs w)); eauto.
Qed.

Lemma ensureAnonAuth_cases (w : World) :
  (exists uid, ensureAnonAuth env w = (Ok uid, signedIn uid w)
               /\ (currentUser w = Some uid
                   \/ currentUser w = None /\ signIn env = Ok uid))
  \/ (exists e, ensureAnonAuth env w = (Err e, w)).
Proof.
  unfold ensureAnonAuth, signedIn. destruct w as [s [u|] n j]; simpl.
  - left. exists u. auto.
  - destruct (signIn env); [left | right]; eauto.
Qed.

End Requests.

(** ** Participant names *)

Lemma orElse_trim (name : string) :
  JsString.orElse (JsString.trim name) "Guest" = storedName name.
Proof.
  unfold storedName. destruct (JsString.blank name) eqn:E.
  - apply trim_empty_iff in E. now rewrite E.
  - destruct (JsString.trim name) eqn:T; [|reflexivity].
    apply trim_empty_iff in T. congruence.
Qed.

Lemma participantDoc_name (t : nat) (uid name : string) (old : Doc) :
  ((resolve t <$> participantDoc uid name) ∪ old) !! "name"
  = Some (VStr (storedName name)).
Proof.
  apply lookup_union_Some_l. rewrite lookup_fmap.
  unfold participantDoc. rewrite orElse_trim. reflexivity.
Qed.

Ltac step_request :=
  match goal with
  | H : context [request ?env ?wr ?w] |- _ =>
      let s := fresh "s" in
      let e := fresh "e" in
      let Hc := fresh "Hcommit" in
      let Hv := fresh "Hverdict" in
      let Hr := fresh "Hreq" in
      destruct (request_cases env wr w) as [(s & Hc & Hv & Hr) | (e & Hr)];
      rewrite Hr in H; clear Hr; cbv beta iota in H
  end.

Ltac step_auth :=
  match goal with
  | H : context [ensureAnonAuth ?env ?w] |- _ =>
      let uid := fresh "uid" in
      let e := fresh "e" in
      let Ha := fresh "Hauth" in
      let Hu := fresh "Huser" in
      destruct (ensureAnonAuth_cases env w) as [(uid & Ha & Hu) | (e & Ha)];
      rewrite Ha in H; clear Ha; cbv beta iota in H
  end.

Lemma createRoom_from_name (env : Env) (todo attempt : nat) (uid name : string)
    (w w' : World) (code : string) :
  createRoom_from env todo attempt uid name w = (Ok code, w') ->
  currentUser w' = currentUser w
  /\ exists d, docs w' !! participantPath code uid = Some d
               /\ d !! "name" = Some (VStr (storedName name)).
Proof.
  revert attempt w. induction todo as [|todo IH]; intros attempt w H; simpl in H.
  - discriminate.
  - unfold bind at 1 in H.
    destruct (generateRoomCode_from_spec env 4 "" w)
      as (c & w1 & Hg & _ & _ & Hd & Hu & _ & _).
    unfold generateRoomCode in H. rewrite Hg in H. clear Hg.
    unfold catch, bind, setDoc, setDocMerge, ret, throw in H.
    step_request.
    + step_request.
      * injection H as <- <-. simpl. split; [assumption |].
        simpl in Hcommit0. injection Hcommit0 as <-.
        rewrite lookup_insert_eq. eexists. split; [reflexivity |].
        apply participantDoc_name.
      * destruct (JsString.includes e permissionDenied && (attempt <? 9)).
        -- apply IH in H. simpl in H. rewrite <- Hu. exact H.
        -- discriminate.
    + destruct (JsString.includes e permissionDenied && (attempt <? 9)).
      * apply IH in H. simpl in H. rewrite <- Hu. exact H.
      * discriminate.
Qed.

(** C10. On success, [createRoom] and [joinRoom] leave a participant
    document of the caller whose name is "Guest" when the trimmed input is
    empty (the input is empty or all white space) and the trimmed input
    otherwise. *)
Theorem participant_name_stored (env : Env) (name : string) (w w' : World) :
  (forall code,
      createRoom env name w = (Ok code, w') ->
      exists uid d,
        currentUser w' = Some uid
        /\ docs w' !! participantPath code uid = Some d
        /\ d !! "name" = Some (VStr (storedName name)))
  /\ (forall code,
         joinRoom env code name w = (Ok tt, w') ->
         exists uid d,
           currentUser w' = Some uid
           /\ docs w' !! participantPath (normalizeRoomCode env code) uid = Some d
           /\ d !! "name" = Some (VStr (storedName name)))
  /\ (JsString.trim name = "" -> storedName name = "Guest")
  /\ (JsString.trim name <> "" -> storedName name = JsString.trim name)
  /\ (JsString.trim name = "" <-> JsString.blank name = true).
Proof.
  split; [|split; [|split; [|split]]].
  - intros code H. unfold createRoom, bind in H. step_auth; [|discriminate].
    apply createRoom_from_name in H as (Hu & d & Hd & Hn).
    exists uid, d. simpl in Hu. auto.
  - intros code H. unfold joinRoom, bind, catch, setDocMerge, throw in H.
    step_auth; [|discriminate]. step_request.
    + injection H as <-. simpl in Hcommit. injection Hcommit as <-.
      exists uid. eexists. simpl. split; [reflexivity |].
      rewrite lookup_insert_eq. split; [reflexivity |].
      apply participantDoc_name.
    + destruct (JsString.includes e permissionDenied); discriminate.
  - intros H. apply trim_empty_iff in H. unfold storedName. now rewrite H.
  - intros H. unfold storedName. destruct (JsString.blank name) eqn:E; [|reflexivity].
    apply trim_empty_iff in E. contradiction.
  - apply trim_empty_iff.
Qed.

Lemma participant_name_stored_witness :
  exists d,
    docs (snd (createRoom Sample.env "  " Sample.world0))
      !! participantPath "J6J6" "anon" = Some d
    /\ d !! "name" = Some (VStr "Guest").
Proof.
  destruct (proj1 (participant_name_stored Sample.env "  " Sample.world0
                     (snd (createRoom Sample.env "  " Sample.world0))) "J6J6")
    as (uid & d & Hu & Hd & Hn).
  - vm_compute. reflexivity.
  - vm_compute in Hu. injection Hu as <-. exists d. split; [exact Hd | exact Hn].
Defined.

(** ** The vote summary *)

Section Summary.
Import RoomView Mean.

Lemma summary_hidden (votes : JsMap VoteDoc) : summary votes false = None.
Proof. reflexivity. Qed.

Lemma summary_revealed (votes : JsMap VoteDoc) :
  summary votes true =
  Some {| avg := match votes with
                 | [] => None
                 | _ => Some (div (fold_left add (map value (mapValues votes)) (ofZ 0))
                                (ofNat (mapSize votes)))
                 end;
          count := mapSize votes |}.
Proof.
  unfold summary, mapSize, mapValues. simpl negb. cbv iota.
  rewrite !length_map. destruct votes as [|v votes]; reflexivity.
Qed.

(** A vote for a key the map does not hold yet is one more entry, whatever
    its value. *)
Lemma mapSet_fresh {A} (m : JsMap A) (k : string) (v : A) :
  mapGet m k = None -> mapSize (mapSet m k v) = S (mapSize m).
Proof.
  unfold mapSize. induction m as [|[k' v'] m IH]; simpl; [reflexivity |].
  destruct (String.eqb k' k); [discriminate |].
  intros H. simpl. now rewrite IH.
Qed.

Lemma mapSet_present {A} (m : JsMap A) (k : string) (v v0 : A) :
  mapGet m k = Some v0 -> mapSize (mapSet m k v) = mapSize m.
Proof.
  unfold mapSize. induction m as [|[k' v'] m IH]; simpl; [discriminate |].
  destruct (String.eqb k' k); [reflexivity |].
  intros H. simpl. now rewrite IH.
Qed.


(** C2, the claim as stated fails: for the votes 1, 1 and 2 the reported
    average is the double 6004799503160661 * 2^-52, which is not the
    rational 4/3. *)
Lemma summary_average_not_exact :
  ~ averageIsExact [card "ann" 1; card "bo" 1; card "cy" 2].
Proof.
  intros H.
  pose (a := S754_finite false 6004799503160661 (-52)).
  assert (summary [card "ann" 1; card "bo" 1; card "cy" 2] true
          = Some {| avg := Some a; count := 3 |}) as Hs by (vm_compute; reflexivity).
  assert (exists q, exactMean [card "ann" 1; card "bo" 1; card "cy" 2] = Some q
                    /\ Qeq q (4 # 3)) as (q & Hm & Hq).
  { eexists. split; [vm_compute; reflexivity | vm_compute; reflexivity]. }
  destruct (H _ a q Hs eq_refl Hm) as (q' & Ha & He).
  injection Ha as <-. rewrite Hq in He. vm_compute in He. discriminate.
Qed.

(** C2, amended. The summary of a hidden round is absent. For a revealed
    round the count is the number of stored votes, whatever their values
    (a vote for a new key adds one, a re-vote adds none); the average is
    absent exactly when there is no vote (then the count is 0), and
    otherwise it is the double-precision quotient of the sum of the values
    by the count; participants are no input of the summary. For the votes
    1, 2, 3 the average is 2; for 3, 5 the count is 2 and the average 4; a
    vote of 0 weighs on the average (0 and 4 average to 2). *)
Theorem summary_counts_and_averages (votes : JsMap VoteDoc) :
  summary votes false = None
  /\ (exists s,
        summary votes true = Some s
        /\ count s = mapSize votes
        /\ (avg s = None <-> votes = [])
        /\ (avg s = None -> count s = 0)
        /\ (votes <> [] ->
            avg s = Some (div (fold_left add (map value (mapValues votes)) (ofZ 0))
                            (ofNat (mapSize votes)))))
  /\ (forall u v s s',
        summary votes true = Some s ->
        summary (mapSet votes u v) true = Some s' ->
        count s' = match mapGet votes u with
                   | None => S (count s)
                   | Some _ => count s
                   end)
  /\ (forall snap view,
        viewSummary (onParticipantsSnapshot snap view) = viewSummary view)
  /\ summary [] true = Some {| avg := None; count := 0 |}
  /\ summary [card "ann" 1; card "bo" 2; card "cy" 3] true
     = Some {| avg := Some (ofZ 2); count := 3 |}
  /\ summary [card "ann" 3; card "bo" 5] true
     = Some {| avg := Some (ofZ 4); count := 2 |}
  /\ summary [card "ann" 0; card "bo" 4] true
     = Some {| avg := Some (ofZ 2); count := 2 |}
  /\ toQ (ofZ 2) = Some (2 # 1)%Q /\ toQ (ofZ 4) = Some (4 # 1)%Q.
Proof.
  split; [apply summary_hidden |].
  split.
  { eexists. split; [apply summary_revealed |]. simpl.
    split; [reflexivity |].
    destruct votes as [|v votes]; simpl.
    - repeat split; try reflexivity. intros H. now contradiction H.
    - repeat split; discriminate || reflexivity. }
  split.
  { intros u v s s'. rewrite !summary_revealed. intros [= <-] [= <-]. simpl.
    destruct (mapGet votes u) eqn:E.
    - eapply mapSet_present; eassumption.
    - now apply mapSet_fresh. }
  split; [reflexivity |].
  repeat split; vm_compute; reflexivity.
Qed.

End Summary.

(** ** Collections *)

Lemma childId_Some (coll p : Path) (id : string) :
  childId coll p = Some id <-> p = coll ++ [id].
Proof.
  unfold childId. split.
  - destruct (last p) as [i|]; [|discriminate].
    destruct (decide (p = coll ++ [i])); [|discriminate]. now intros [= <-].
  - intros ->. rewrite last_snoc. now rewrite decide_True.
Qed.

Lemma lookup_docsIn (coll : Path) (s : Store) (id : string) :
  docsIn coll s !! id = s !! (coll ++ [id]).
Proof.
  unfold docsIn. revert id.
  apply (map_fold_weak_ind
           (fun acc (m : Store) => forall id, acc !! id = m !! (coll ++ [id]))).
  - intros id. now rewrite !lookup_empty.
  - intros p d m acc Hp IH id.
    destruct (childId coll p) as [i|] eqn:E.
    + apply childId_Some in E as ->.
      destruct (decide (i = id)) as [->|Hne].
      * now rewrite !lookup_insert_eq.
      * rewrite !lookup_insert_ne; [apply IH | | assumption].
        intros H. apply app_inv_head in H. congruence.
    + rewrite lookup_insert_ne; [apply IH |].
      intros ->. rewrite (proj2 (childId_Some coll _ id)) in E; [discriminate | reflexivity].
Qed.

(** Writing a document of a collection updates that collection at its id. *)
Lemma docsIn_insert (coll : Path) (s : Store) (id : string) (d : Doc) :
  docsIn coll (<[coll ++ [id] := d]> s) = <[id := d]> (docsIn coll s).
Proof.
  apply map_eq. intros i. rewrite lookup_docsIn.
  destruct (decide (id = i)) as [->|Hne].
  - now rewrite !lookup_insert_eq.
  - rewrite !lookup_insert_ne; [now rewrite lookup_docsIn | assumption |].
    intros H. apply app_inv_head in H. congruence.
Qed.

(** Writing elsewhere leaves the collection as it was. *)
Lemma docsIn_insert_other (coll p : Path) (s : Store) (d : Doc) :
  (forall id, p <> coll ++ [id]) ->
  docsIn coll (<[p := d]> s) = docsIn coll s.
Proof.
  intros H. apply map_eq. intros i. rewrite !lookup_docsIn.
  apply lookup_insert_ne. apply H.
Qed.

(** ** Starting a round *)

Section StartRound.

Context (env : Env).

(** The four ways a call of [startRound] can go: sign-in fails; the round
    is refused; the round is created and the room update fails; both writes
    are committed. *)
Lemma startRound_cases (code ticket : string) (w : World) :
  let c := normalizeRoomCode env code in
  (exists e, startRound env code ticket w = (Err e, w))
  \/ (exists uid e,
         fst (ensureAnonAuth env w) = Ok uid
         /\ startRound env code ticket w = (Err e, tick (tick (signedIn uid w))))
  \/ (exists uid e id t,
         fst (ensureAnonAuth env w) = Ok uid
         /\ id = autoId env (ticks w)
         /\ docs w !! roundPath c id = None
         /\ let w1 := committed (WCreate (roundPath c id) (roundDoc uid ticket))
                        (<[roundPath c id := resolve t <$> roundDoc uid ticket]> (docs w))
                        (tick (signedIn uid w)) in
            startRound env code ticket w = (Err e, tick w1))
  \/ (exists uid id t t' room,
         fst (ensureAnonAuth env w) = Ok uid
         /\ id = autoId env (ticks w)
         /\ docs w !! roundPath c id = None
         /\ docs w !! roomPath c = Some room
         /\ let s1 := <[roundPath c id := resolve t <$> roundDoc uid ticket]> (docs w) in
            let w1 := committed (WCreate (roundPath c id) (roundDoc uid ticket)) s1
                        (tick (signedIn uid w)) in
            let s2 := <[roomPath c := (resolve t' <$> roomUpdate (VStr id)) ∪ room]> s1 in
            startRound env code ticket w
            = (Ok id, committed (WUpdate (roomPath c) (roomUpdate (VStr id))) s2 w1)).
Proof.
  intros c. unfold startRound, bind, addDoc, updateDoc, ret. fold c.
  destruct (ensureAnonAuth_cases env w) as [(uid & Ha & Hu) | (e & Ha)];
    rewrite Ha; cbv beta iota; [|left; eauto].
  right.
  assert (fst (ensureAnonAuth env w) = Ok uid) as Hfst by now rewrite Ha.
  unfold bind.
  destruct (request_cases env (WCreate (roundsPath c ++ [autoId env (ticks (signedIn uid w))])
                                 (roundDoc uid ticket)) (tick (signedIn uid w)))
    as [(s1 & Hc1 & _ & Hr1) | (e & Hr1)]; rewrite Hr1; cbv beta iota;
    [|left; exists uid, e; auto].
  right. simpl in Hc1.
  change (docs w !! roundPath c (autoId env (ticks w))) with
    (docs w !! ["rooms"; c; "rounds"; autoId env (ticks w)]).
  destruct (docs w !! ["rooms"; c; "rounds"; autoId env (ticks w)]) eqn:Hfresh;
    [discriminate |]. injection Hc1 as <-.
  match goal with
  | |- context [request env ?wr ?w1] =>
      destruct (request_cases env wr w1) as [(s2 & Hc2 & _ & Hr2) | (e & Hr2)];
      rewrite Hr2; cbv beta iota
  end.
  - right. simpl in Hc2.
    rewrite lookup_insert_ne in Hc2 by discriminate.
    destruct (docs w !! roomPath c) as [room|] eqn:Hroom; [|discriminate].
    injection Hc2 as <-.
    exists uid, (autoId env (ticks w)), (now env (S (ticks w))),
      (now env (S (S (ticks w)))), room.
    repeat split; auto.
  - left. exists uid, e, (autoId env (ticks w)), (now env (S (ticks w))).
    repeat split; auto.
Qed.

End StartRound.

(** C7. [startRound] first creates a round document that did not exist,
    with [revealed = false] and the trimmed ticket, and then points the
    room's [currentRoundId] at the id of that document, which it returns.
    Whatever the outcome, the writes it commits are a prefix of (create the
    round, update the room): the room is never updated before the round
    exists, and a failed call leaves the room document as it was. *)
Theorem startRound_creates_then_references (env : Env) (code ticket : string) (w : World) :
  let c := normalizeRoomCode env code in
  let r := fst (startRound env code ticket w) in
  let w' := snd (startRound env code ticket w) in
  exists uid id,
    let create := WCreate (roundPath c id) (roundDoc uid ticket) in
    let update := WUpdate (roomPath c) (roomUpdate (VStr id)) in
    (journal w' = journal w
     \/ journal w' = journal w ++ [create]
     \/ journal w' = journal w ++ [create; update])
    /\ (forall id',
          r = Ok id' ->
          id' = id
          /\ journal w' = journal w ++ [create; update]
          /\ docs w !! roundPath c id = None
          /\ (exists round,
                 docs w' !! roundPath c id = Some round
                 /\ round !! "revealed" = Some (VBool false)
                 /\ round !! "ticket" = Some (VStr (JsString.trim ticket))
                 /\ round !! "createdBy" = Some (VStr uid))
          /\ (exists room,
                 docs w' !! roomPath c = Some room
                 /\ room !! "currentRoundId" = Some (VStr id))
          /\ (forall p, p <> roundPath c id -> p <> roomPath c ->
                        docs w' !! p = docs w !! p))
    /\ (forall e, r = Err e -> docs w' !! roomPath c = docs w !! roomPath c).
Proof.
  intros c r w'. subst r w'.
  pose proof (startRound_cases env code ticket w) as Hcases.
  cbv zeta in Hcases. fold c in Hcases.
  destruct Hcases
    as [(e & H) | [(uid & e & _ & H) | [(uid & e & id & t & _ & _ & Hfresh & H)
                                       | (uid & id & t & t' & room & _ & _ & Hfresh & Hroom & H)]]];
    rewrite H; simpl.
  - exists "", "". split; [auto |]. split; [discriminate | reflexivity].
  - exists uid, "". split; [auto |]. split; [discriminate | reflexivity].
  - exists uid, id. split; [auto |]. split; [discriminate |].
    intros _ _. now rewrite lookup_insert_ne.
  - exists uid, id. split.
    { right. right. now rewrite <- app_assoc. }
    split; [|discriminate].
    intros id' [= <-]. split; [reflexivity |].
    split; [now rewrite <- app_assoc |]. split; [assumption |].
    split; [|split].
    + eexists. rewrite lookup_insert_ne by discriminate.
      rewrite lookup_insert_eq. split; [reflexivity |].
      rewrite !lookup_fmap. repeat split; reflexivity.
    + eexists. rewrite lookup_insert_eq. split; [reflexivity |].
      apply lookup_union_Some_l. rewrite lookup_fmap. reflexivity.
    + intros p Hp1 Hp2. now rewrite !lookup_insert_ne.
Qed.

Lemma startRound_sample :
  exists round room,
    fst (startRound Sample.env " j6j6" " AUTH-123 " Scenario.room1) = Ok "round-G"
    /\ docs (snd (startRound Sample.env " j6j6" " AUTH-123 " Scenario.room1))
         !! roundPath "J6J6" "round-G" = Some round
    /\ round !! "revealed" = Some (VBool false)
    /\ round !! "ticket" = Some (VStr "AUTH-123")
    /\ docs (snd (startRound Sample.env " j6j6" " AUTH-123 " Scenario.room1))
         !! roomPath "J6J6" = Some room
    /\ room !! "currentRoundId" = Some (VStr "round-G").
Proof.
  destruct (startRound_creates_then_references Sample.env " j6j6" " AUTH-123 "
              Scenario.room1) as (uid & id & _ & Hok & _).
  destruct (Hok "round-G") as (<- & _ & _ & (round & Hr & Hrev & Hticket & _)
                               & (room & Hroom & Hcur) & _).
  - vm_compute. reflexivity.
  - exists round, room.
    split; [vm_compute; reflexivity |]. auto.
Defined.

(** ** Failing writes *)

Lemma single_request_failure (env : Env) (wr : Write) (w : World) :
  failureKeepsStore (request env wr) w.
Proof.
  intros e H. destruct (request_cases env wr w) as [(s & _ & _ & Hr) | (e' & Hr)];
    rewrite Hr in *; [discriminate | reflexivity].
Qed.

Lemma after_auth_failure {A} (env : Env) (k : string -> M A) (w : World) :
  (forall uid, failureKeepsStore (k uid) (signedIn uid w)) ->
  failureKeepsStore (bind (ensureAnonAuth env) k) w.
Proof.
  intros Hk e. unfold bind.
  destruct (ensureAnonAuth_cases env w) as [(uid & Ha & _) | (e' & Ha)]; rewrite Ha.
  - intros H. now rewrite (Hk uid e H).
  - reflexivity.
Qed.

(** C5, the claim as stated fails: with the server out of reach after the
    round was created, [startRound] fails and the database keeps the new
    round document. *)
Lemma startRound_failure_keeps_round :
  ~ failureKeepsStore (startRound (Sample.offlineFrom 8) "J6J6" "AUTH-123") Scenario.room1.
Proof.
  intros H. specialize (H "unavailable" ltac:(vm_compute; reflexivity)).
  apply (f_equal (fun s => bool_decide (is_Some (s !! roundPath "J6J6" "round-G")))) in H.
  vm_compute in H. discriminate.
Qed.

(** C5, amended. A failing [revealRound], [clearCurrentRound] or [castVote]
    leaves the database as it was. A failing [startRound] leaves it as it
    was when the round is refused; when the room update fails, the database
    differs by the round document just created, and by nothing else. *)
Theorem failed_write_effects (env : Env) (w : World) :
  (forall code roundId, failureKeepsStore (revealRound env code roundId) w)
  /\ (forall code, failureKeepsStore (clearCurrentRound env code) w)
  /\ (forall code roundId value, failureKeepsStore (castVote env code roundId value) w)
  /\ (forall code ticket e,
        fst (startRound env code ticket w) = Err e ->
        let c := normalizeRoomCode env code in
        let w' := snd (startRound env code ticket w) in
        (journal w' = journal w /\ docs w' = docs w)
        \/ (exists uid id t,
               journal w' = journal w ++ [WCreate (roundPath c id) (roundDoc uid ticket)]
               /\ docs w !! roundPath c id = None
               /\ docs w' = <[roundPath c id := resolve t <$> roundDoc uid ticket]> (docs w))).
Proof.
  split; [|split; [|split]].
  - intros code roundId. apply single_request_failure.
  - intros code. apply single_request_failure.
  - intros code roundId value. apply after_auth_failure.
    intros uid. apply (single_request_failure env _ (signedIn uid w)).
  - intros code ticket e H c w'. subst w'.
    pose proof (startRound_cases env code ticket w) as Hcases.
    cbv zeta in Hcases. fold c in Hcases.
    destruct Hcases
      as [(e' & H') | [(uid & e' & _ & H') | [(uid & e' & id & t & _ & _ & Hfresh & H')
                                          | (uid & id & t & t' & room & _ & _ & _ & _ & H')]]];
      rewrite H' in *; simpl.
    + left. auto.
    + left. auto.
    + right. exists uid, id, t. auto.
    + discriminate.
Qed.

(** ** Clearing the current round *)

(** C9. A successful [clearCurrentRound] rewrites the room document only:
    its [currentRoundId] becomes null, its [updatedAt] the time of the
    write, its other fields stay; every other document (rounds, votes,
    participants) is left as it was. In the view, the room snapshot then
    makes the round effect drop the round and empty the votes map, and the
    participants list is not touched. *)
Theorem clearCurrentRound_frame (env : Env) (code : string) (w w' : World) :
  clearCurrentRound env code w = (Ok tt, w') ->
  let c := normalizeRoomCode env code in
  exists room room' t,
    docs w !! roomPath c = Some room
    /\ docs w' = <[roomPath c := room']> (docs w)
    /\ journal w' = journal w ++ [WUpdate (roomPath c) (roomUpdate VNull)]
    /\ room' !! "currentRoundId" = Some VNull
    /\ room' !! "updatedAt" = Some (VTime t)
    /\ (forall f, f <> "currentRoundId" -> f <> "updatedAt" -> room' !! f = room !! f)
    /\ (forall p, p <> roomPath c -> docs w' !! p = docs w !! p)
    /\ (forall k r, docs w' !! roundPath k r = docs w !! roundPath k r)
    /\ (forall k r, docsIn (votesPath k r) (docs w') = docsIn (votesPath k r) (docs w))
    /\ (forall k, docsIn (participantsPath k) (docs w')
                  = docsIn (participantsPath k) (docs w))
    /\ (forall viewCode v,
          let v' := RoomView.roundEffect viewCode
                      (RoomView.onRoomSnapshot (docs w' !! roomPath c) v) in
          RoomView.round v' = None
          /\ RoomView.votes v' = []
          /\ RoomView.participants v' = RoomView.participants v)
    /\ (forall v,
          RoomView.round (RoomView.onResetDone v) = None
          /\ RoomView.votes (RoomView.onResetDone v) = []
          /\ RoomView.participants (RoomView.onResetDone v) = RoomView.participants v).
Proof.
  intros H c. unfold clearCurrentRound, updateDoc in H. fold c in H.
  apply request_ok in H as (_ & s & Hc & ->). simpl in Hc.
  destruct (docs w !! roomPath c) as [room|] eqn:Hroom; [|discriminate].
  injection Hc as <-.
  exists room, ((resolve (now env (ticks w)) <$> roomUpdate VNull) ∪ room),
    (now env (ticks w)).
  simpl. repeat split.
  - apply lookup_union_Some_l. rewrite lookup_fmap. reflexivity.
  - apply lookup_union_Some_l. rewrite lookup_fmap. reflexivity.
  - intros f H1 H2. rewrite lookup_union_r; [reflexivity |].
    rewrite lookup_fmap. unfold roomUpdate, obj. simpl.
    rewrite !lookup_insert_ne by congruence. reflexivity.
  - intros p Hp. now rewrite lookup_insert_ne.
  - intros k r. now rewrite lookup_insert_ne.
  - intros k r. now apply docsIn_insert_other.
  - intros k. now apply docsIn_insert_other.
  - unfold RoomView.roundEffect, RoomView.currentRoundId. rewrite lookup_insert_eq.
    simpl. rewrite (lookup_union_Some_l _ _ _ VNull); [simpl | now rewrite lookup_fmap].
    now rewrite orb_true_r.
  - unfold RoomView.roundEffect, RoomView.currentRoundId. rewrite lookup_insert_eq.
    simpl. rewrite (lookup_union_Some_l _ _ _ VNull); [simpl | now rewrite lookup_fmap].
    now rewrite orb_true_r.
  - unfold RoomView.roundEffect, RoomView.currentRoundId. rewrite lookup_insert_eq.
    simpl. rewrite (lookup_union_Some_l _ _ _ VNull); [simpl | now rewrite lookup_fmap].
    now rewrite orb_true_r.
Qed.

Lemma clearCurrentRound_sample :
  let after := snd (clearCurrentRound Sample.env " j6j6" Scenario.voted) in
  (exists room', docs after !! roomPath "J6J6" = Some room'
                 /\ room' !! "currentRoundId" = Some VNull)
  /\ docsIn (votesPath "J6J6" "round-H") (docs after)
     = docsIn (votesPath "J6J6" "round-H") (docs Scenario.voted)
  /\ docs after !! roundPath "J6J6" "round-H"
     = docs Scenario.voted !! roundPath "J6J6" "round-H".
Proof.
  destruct (clearCurrentRound_frame Sample.env " j6j6" Scenario.voted
              (snd (clearCurrentRound Sample.env " j6j6" Scenario.voted)))
    as (room & room' & t & _ & Hd & _ & Hcur & _ & _ & _ & Hround & Hvotes & _).
  - vm_compute. reflexivity.
  - cbv zeta. split; [|split].
    + exists room'. split; [|exact Hcur]. rewrite Hd. apply lookup_insert_eq.
    + apply Hvotes.
    + apply Hround.
Defined.

(** ** Joining a room *)

(** C6. [joinRoom] addresses the room by the trimmed, upper-cased code and
    upserts the participant document keyed by the caller's uid under it.
    With a store that refuses the upsert exactly when the room is absent,
    as a permission failure, the call fails with "Room not found." exactly
    when the room does not exist, and then writes nothing; for an existing
    room the upsert is committed and the room document is left as it was. *)
Theorem joinRoom_requires_room (env : Env) (code name : string) (w : World) (uid : string) :
  let c := normalizeRoomCode env code in
  let wr := WMerge (participantPath c uid) (participantDoc uid name) in
  let r := fst (joinRoom env code name w) in
  let w' := snd (joinRoom env code name w) in
  fst (ensureAnonAuth env w) = Ok uid ->
  requiresRoom env w c wr ->
  c = toUpperCase env (JsString.trim code)
  /\ (r = Err roomNotFound <-> docs w !! roomPath c = None)
  /\ (docs w !! roomPath c = None -> docs w' = docs w /\ journal w' = journal w)
  /\ (is_Some (docs w !! roomPath c) ->
      r = Ok tt
      /\ journal w' = journal w ++ [wr]
      /\ docs w' !! roomPath c = docs w !! roomPath c
      /\ exists t,
          docs w' = <[participantPath c uid :=
                        (resolve t <$> participantDoc uid name)
                        ∪ default ∅ (docs w !! participantPath c uid)]> (docs w)).
Proof.
  intros c wr r w' Hauth Hrules. subst r w'.
  split; [reflexivity |].
  unfold joinRoom, bind, catch, setDocMerge, throw. fold c. fold wr.
  destruct (ensureAnonAuth_cases env w) as [(u & Ha & _) | (e & Ha)];
    rewrite Ha in Hauth |- *; simpl in Hauth; [|discriminate].
  injection Hauth as ->. cbv beta iota.
  unfold requiresRoom in Hrules. unfold request.
  change (docs (signedIn uid w)) with (docs w).
  change (ticks (signedIn uid w)) with (ticks w).
  destruct (verdict env (ticks w) (docs w) wr) as [msg|] eqn:Hv;
    unfold wr in Hv; rewrite Hv; cbv beta iota.
  - destruct Hrules as [Hroom Hmsg]. rewrite Hmsg. simpl.
    split; [tauto |]. split; [auto |].
    intros [d Hd]. congruence.
  - simpl. split; [|split].
    + split; [discriminate |]. intros Hnone. rewrite Hnone in Hrules.
      now destruct Hrules.
    + intros Hnone. rewrite Hnone in Hrules. now destruct Hrules.
    + intros _. repeat split.
      * now rewrite lookup_insert_ne.
      * eexists. reflexivity.
Qed.

Lemma joinRoom_sample :
  (fst (joinRoom Sample.env " j6j6 " "Bo" (signedIn "bo" Scenario.room1)) = Ok tt
   /\ normalizeRoomCode Sample.env " j6j6 " = "J6J6"
   /\ docs Scenario.joined !! roomPath "J6J6" = docs Scenario.room1 !! roomPath "J6J6")
  /\ (fst (joinRoom Sample.env "zz99" "Bo" (signedIn "bo" Scenario.room1))
      = Err roomNotFound
      /\ docs (snd (joinRoom Sample.env "zz99" "Bo" (signedIn "bo" Scenario.room1)))
         = docs Scenario.room1).
Proof.
  split.
  - destruct (joinRoom_requires_room Sample.env " j6j6 " "Bo"
                (signedIn "bo" Scenario.room1) "bo")
      as (Hc & _ & _ & Hok).
    + vm_compute. reflexivity.
    + vm_compute. eexists. reflexivity.
    + destruct Hok as (Hr & _ & Hroom & _).
      * vm_compute. eexists. reflexivity.
      * split; [exact Hr |]. split; [vm_compute; reflexivity | exact Hroom].
  - destruct (joinRoom_requires_room Sample.env "zz99" "Bo"
                (signedIn "bo" Scenario.room1) "bo")
      as (_ & Hiff & Hnone & _).
    + vm_compute. reflexivity.
    + vm_compute. split; reflexivity.
    + split.
      * apply Hiff. vm_compute. reflexivity.
      * apply Hnone. vm_compute. reflexivity.
Defined.

(** ** Casting votes *)

Section CastVote.

Context (env : Env) (code roundId : string).

Let c := normalizeRoomCode env code.
Let coll := votesPath c roundId.

(** One call by the client signed in as [uid]: the vote document of [uid]
    is replaced, or the call fails and nothing changes. *)
Lemma castVote_step (uid : string) (value : number) (w : World) :
  let r := castVote env code roundId value (signedIn uid w) in
  (fst r = Ok tt
   /\ exists t, docs (snd r) = <[coll ++ [uid] := resolve t <$> voteDoc uid value]> (docs w))
  \/ (exists e, fst r = Err e /\ docs (snd r) = docs w).
Proof.
  unfold castVote, bind, ensureAnonAuth, setDoc. simpl.
  fold c.
  destruct (request_cases env (WSet (votePath c roundId uid) (voteDoc uid value))
              (signedIn uid w)) as [(s & Hc & _ & Hr) | (e & Hr)]; rewrite Hr; simpl.
  - left. split; [reflexivity |]. simpl in Hc. injection Hc as <-. eauto.
  - right. eauto.
Qed.

Lemma voteDoc_fields (t : nat) (uid : string) (value : number) :
  (resolve t <$> voteDoc uid value) !! "uid" = Some (VStr uid)
  /\ (resolve t <$> voteDoc uid value) !! "value" = Some (VNum value).
Proof. rewrite !lookup_fmap. split; reflexivity. Qed.

Lemma castAll_spec (ballots : list (string * number)) (w : World) :
  let accepted := fst (castAll env code roundId ballots w) in
  let before := docsIn coll (docs w) in
  let after := docsIn coll (docs (snd (castAll env code roundId ballots w))) in
  sublist accepted ballots
  /\ dom after = dom before ∪ list_to_set accepted.*1
  /\ (forall uid,
        match lastValue uid accepted with
        | Some v => exists d, after !! uid = Some d
                              /\ d !! "uid" = Some (VStr uid)
                              /\ d !! "value" = Some (VNum v)
        | None => after !! uid = before !! uid
        end)
  /\ (keyedByUid before -> keyedByUid after).
Proof.
  revert w. induction ballots as [|[u v] rest IH]; intros w; simpl.
  - split; [constructor |]. split; [|auto].
    now rewrite (right_id_L ∅ (∪)).
  - destruct (castVote_step u v w) as [(Hr & t & Hd) | (e & Hr & Hd)];
      destruct (castVote env code roundId v (signedIn u w)) as [r w1];
      cbn [fst snd] in Hr, Hd; subst r;
      specialize (IH w1); destruct (castAll env code roundId rest w1) as [acc wf];
      cbn [fst snd] in IH |- *; destruct IH as (Hsub & Hdom & Hlast & Hkey);
      rewrite Hd in *.
    + rewrite docsIn_insert in *.
      destruct (voteDoc_fields t u v) as [Fu Fv].
      split; [now constructor |]. split; [|split].
      * rewrite Hdom, dom_insert_L, fmap_cons, list_to_set_cons. cbn [fst].
        now rewrite (assoc_L (∪)), (comm_L (∪) (dom _) {[u]}).
      * intros uid. specialize (Hlast uid). cbn [lastValue].
        destruct (lastValue uid acc); [exact Hlast |].
        destruct (String.eqb_spec u uid) as [->|Hne].
        -- rewrite Hlast, lookup_insert_eq. eauto.
        -- now rewrite Hlast, lookup_insert_ne.
      * intros Hk. apply Hkey. intros id d.
        destruct (decide (u = id)) as [->|Hne].
        -- rewrite lookup_insert_eq. now intros [= <-].
        -- rewrite lookup_insert_ne by assumption. apply Hk.
    + split; [now constructor |]. auto.
Qed.

End CastVote.

(** ** The votes map of the view *)

Section VotesMap.
Import RoomView.

Lemma mapGet_None {A} (m : JsMap A) (k : string) :
  k ∉ m.*1 -> mapGet m k = None.
Proof.
  induction m as [|[k' v'] m IH]; simpl; [reflexivity |].
  intros H. apply not_elem_of_cons in H as [Hne H].
  destruct (String.eqb_spec k' k); [congruence | auto].
Qed.

Lemma mapSet_keys_fresh {A} (m : JsMap A) (k : string) (v : A) :
  mapGet m k = None -> (mapSet m k v).*1 = m.*1 ++ [k].
Proof.
  induction m as [|[k' v'] m IH]; simpl; [reflexivity |].
  destruct (String.eqb k' k); [discriminate |].
  intros H. rewrite !fmap_cons, IH by assumption. reflexivity.
Qed.

Lemma fold_mapSet_keys {A B} (f : B -> A) (snap : list (string * B)) (m : JsMap A) :
  NoDup (m.*1 ++ snap.*1) ->
  (fold_left (fun acc d => mapSet acc (fst d) (f (snd d))) snap m).*1
  = m.*1 ++ snap.*1.
Proof.
  revert m. induction snap as [|[k b] snap IH]; intros m H; simpl.
  - now rewrite app_nil_r.
  - simpl in H. rewrite IH.
    + rewrite mapSet_keys_fresh; [now rewrite <- app_assoc |].
      apply mapGet_None. apply NoDup_app in H as (_ & H & _).
      intros Hin. apply (H k Hin). now left.
    + rewrite mapSet_keys_fresh.
      * now rewrite <- app_assoc.
      * apply mapGet_None. apply NoDup_app in H as (_ & H & _).
        intros Hin. apply (H k Hin). now left.
Qed.

(** The votes listener fills the map with one entry per document of the
    snapshot. *)
Lemma onVotesSnapshot_size (coll : gmap string (gmap string Value)) (v : View) :
  mapSize (votes (onVotesSnapshot (map_to_list coll) v)) = size coll
  /\ (votes (onVotesSnapshot (map_to_list coll) v)).*1 = (map_to_list coll).*1.
Proof.
  unfold onVotesSnapshot, mapSize. simpl.
  assert ((fold_left (fun m d => mapSet m d.1 (asVoteDoc d.2)) (map_to_list coll) []).*1
          = (map_to_list coll).*1) as H.
  { rewrite fold_mapSet_keys; [reflexivity |]. simpl. apply NoDup_fst_map_to_list. }
  split; [|exact H].
  rewrite <- (length_fmap fst), H, length_fmap. apply length_map_to_list.
Qed.

End VotesMap.

Lemma size_list_to_set_dups (l : list string) :
  size (list_to_set l : gset string) = length (remove_dups l).
Proof.
  rewrite <- (size_list_to_set (C := gset string) (remove_dups l))
    by apply NoDup_remove_dups.
  f_equal. apply set_eq. intros x.
  rewrite !elem_of_list_to_set. now rewrite elem_of_remove_dups.
Qed.

Lemma castAll_all_accepted (env : Env) (code roundId : string)
    (ballots : list (string * number)) (w : World) :
  (forall n s wr, verdict env n s wr = None) ->
  fst (castAll env code roundId ballots w) = ballots.
Proof.
  intros Hv. revert w. induction ballots as [|[u v] rest IH]; intros w; [reflexivity |].
  cbn [castAll]. unfold castVote at 1, bind, ensureAnonAuth, setDoc, request.
  cbn [currentUser signedIn]. rewrite Hv. cbn [commit].
  match goal with
  | |- context [castAll env code roundId rest ?w1] =>
      specialize (IH w1); destruct (castAll env code roundId rest w1)
  end.
  cbn [fst] in *. now rewrite IH.
Qed.

(** C3. Whatever sequence of [castVote] calls the participants make on a
    round, the votes collection of the round holds, for each participant
    with an accepted call, one document under the participant's uid, and
    it carries the last value that participant cast; a collection whose
    documents name their key as uid keeps that shape, so no two of its
    documents belong to one uid; the number of votes is the number of
    distinct uids that voted, and it is the size of the votes map of the
    view. *)
Theorem one_vote_per_participant (env : Env) (code roundId : string)
    (ballots : list (string * number)) (w : World) :
  let coll := votesPath (normalizeRoomCode env code) roundId in
  let accepted := fst (castAll env code roundId ballots w) in
  let before := docsIn coll (docs w) in
  let after := docsIn coll (docs (snd (castAll env code roundId ballots w))) in
  sublist accepted ballots
  /\ ((forall n s wr, verdict env n s wr = None) -> accepted = ballots)
  /\ (forall uid,
        match lastValue uid accepted with
        | Some v => exists d, after !! uid = Some d
                              /\ d !! "uid" = Some (VStr uid)
                              /\ d !! "value" = Some (VNum v)
        | None => after !! uid = before !! uid
        end)
  /\ (keyedByUid before ->
      keyedByUid after
      /\ forall id1 id2 d1 d2 uid,
          after !! id1 = Some d1 -> after !! id2 = Some d2 ->
          d1 !! "uid" = Some (VStr uid) -> d2 !! "uid" = Some (VStr uid) ->
          id1 = id2 /\ d1 = d2)
  /\ size after = size (dom before ∪ list_to_set accepted.*1 : gset string)
  /\ (before = ∅ -> size after = length (remove_dups accepted.*1))
  /\ (forall v,
        RoomView.mapSize (RoomView.votes (RoomView.onVotesSnapshot (map_to_list after) v))
        = size after).
Proof.
  intros coll accepted before after.
  destruct (castAll_spec env code roundId ballots w) as (Hsub & Hdom & Hlast & Hkey).
  fold coll accepted before after in Hsub, Hdom, Hlast, Hkey.
  split; [exact Hsub |]. split; [apply castAll_all_accepted |].
  split; [exact Hlast |]. split; [|split; [|split]].
  - intros Hk. specialize (Hkey Hk). split; [exact Hkey |].
    intros id1 id2 d1 d2 uid H1 H2 U1 U2.
    pose proof (Hkey _ _ H1) as K1. pose proof (Hkey _ _ H2) as K2.
    assert (id1 = id2) as -> by congruence. split; congruence.
  - now rewrite <- Hdom, size_dom.
  - intros He. rewrite <- size_dom, Hdom, He, dom_empty_L, (left_id_L ∅ (∪)).
    apply size_list_to_set_dups.
  - intros v. apply onVotesSnapshot_size.
Qed.

Lemma revote_sample :
  let after :=
    docsIn (votesPath "J6J6" "round-H")
      (docs (snd (castAll Sample.env "j6j6" "round-H"
                    [("bo", ofZ 3); ("host", ofZ 5); ("bo", ofZ 8)] Scenario.round1))) in
  size after = 2
  /\ exists d, after !! "bo" = Some d /\ d !! "value" = Some (VNum (ofZ 8)).
Proof.
  destruct (one_vote_per_participant Sample.env "j6j6" "round-H"
              [("bo", ofZ 3); ("host", ofZ 5); ("bo", ofZ 8)] Scenario.round1)
    as (_ & _ & Hlast & _ & _ & Hsize & _).
  cbv zeta in *.
  assert (fst (castAll Sample.env "j6j6" "round-H"
                 [("bo", ofZ 3); ("host", ofZ 5); ("bo", ofZ 8)] Scenario.round1)
          = [("bo", ofZ 3); ("host", ofZ 5); ("bo", ofZ 8)]) as E
    by (vm_compute; reflexivity).
  rewrite E in *.
  split.
  - refine (eq_trans (Hsize _) _); vm_compute; reflexivity.
  - destruct (Hlast "bo") as (d & Hd & _ & Hv). exists d. split; [exact Hd | exact Hv].
Defined.

(** ** The writes of the operations *)

Section Writes.

Context (P : Write -> bool).

Lemma evolves_refl (w : World) : evolves P w w.
Proof. now apply evolves_same. Qed.

Lemma evolves_trans (w1 w2 w3 : World) :
  evolves P w1 w2 -> evolves P w2 w3 -> evolves P w1 w3.
Proof.
  intros H12 H23. induction H23 as [w3 Hd Hj | w2' w3 wr t _ IH HP Hc Hj].
  - destruct H12 as [w2 Hd' Hj' | w2' w2 wr t H HP Hc Hj'].
    + apply evolves_same; congruence.
    + apply (evolves_commit P w1 w2' w3 wr t); congruence.
  - apply (evolves_commit P w1 w2' w3 wr t); auto.
Qed.

Lemma evolves_from_same (w0 w w' : World) :
  docs w0 = docs w -> journal w0 = journal w -> evolves P w w' -> evolves P w0 w'.
Proof.
  intros Hd Hj H. apply (evolves_trans w0 w w'); [|exact H].
  apply evolves_same; congruence.
Qed.

Lemma writesOnly_ret {A} (a : A) : writesOnly P (ret a).
Proof. intros w. apply evolves_refl. Qed.

Lemma writesOnly_throw {A} (e : string) : writesOnly P (@throw A e).
Proof. intros w. apply evolves_refl. Qed.

Lemma writesOnly_bind {A B} (m : M A) (k : A -> M B) :
  writesOnly P m -> (forall a, writesOnly P (k a)) -> writesOnly P (bind m k).
Proof.
  intros Hm Hk w. unfold bind. specialize (Hm w).
  destruct (m w) as [[a|e] w1]; simpl in *; [|exact Hm].
  eapply evolves_trans; [exact Hm | apply Hk].
Qed.

Lemma writesOnly_catch {A} (m : M A) (h : string -> M A) :
  writesOnly P m -> (forall e, writesOnly P (h e)) -> writesOnly P (catch m h).
Proof.
  intros Hm Hh w. unfold catch. specialize (Hm w).
  destruct (m w) as [[a|e] w1]; simpl in *; [exact Hm |].
  eapply evolves_trans; [exact Hm | apply Hh].
Qed.

Lemma writesOnly_request (env : Env) (wr : Write) :
  P wr = true -> writesOnly P (request env wr).
Proof.
  intros HP w.
  destruct (request_cases env wr w) as [(s & Hc & _ & Hr) | (e & Hr)]; rewrite Hr; simpl.
  - apply (evolves_commit P w w _ wr (now env (ticks w)));
      [apply evolves_refl | assumption | assumption | reflexivity].
  - now apply evolves_same.
Qed.

Lemma writesOnly_auth (env : Env) : writesOnly P (ensureAnonAuth env).
Proof.
  intros w. destruct (ensureAnonAuth_cases env w) as [(u & Ha & _) | (e & Ha)];
    rewrite Ha; now apply evolves_same.
Qed.

Lemma writesOnly_generateRoomCode (env : Env) : writesOnly P (generateRoomCode env).
Proof.
  intros w. destruct (generateRoomCode_from_spec env 4 "" w)
    as (code & w' & H & _ & _ & Hd & _ & Hj & _).
  unfold generateRoomCode. rewrite H. now apply evolves_same.
Qed.

Lemma writesOnly_addDoc (env : Env) (coll : Path) (data : Doc) :
  (forall id, P (WCreate (coll ++ [id]) data) = true) ->
  writesOnly P (addDoc env coll data).
Proof.
  intros HP w. unfold addDoc.
  apply (evolves_from_same w (tick w)); [reflexivity | reflexivity |].
  apply (writesOnly_bind (request env _) (fun _ => ret _));
    [apply writesOnly_request, HP | intros; apply writesOnly_ret].
Qed.

End Writes.

(** ** A reveal is never taken back *)

Lemma commit_keepsRevealed (t : nat) (wr : Write) (s s' : Store) (code roundId : string) :
  keepsRevealed wr = true ->
  commit t wr s = Ok s' ->
  revealedRound s code roundId -> revealedRound s' code roundId.
Proof.
  intros Hk Hc (d & Hd & Hr). unfold revealedRound.
  assert (isRoundPath (roundPath code roundId) = true) as Hround by reflexivity.
  destruct wr as [p data | p data | p data | p data | p]; simpl in Hk, Hc.
  - injection Hc as <-. exists d. split; [|exact Hr].
    rewrite lookup_insert_ne; [exact Hd |]. intros ->. now rewrite Hround in Hk.
  - injection Hc as <-. exists d. split; [|exact Hr].
    rewrite lookup_insert_ne; [exact Hd |]. intros ->. now rewrite Hround in Hk.
  - destruct (s !! p) as [old|] eqn:Hold; [|discriminate]. injection Hc as <-.
    destruct (decide (p = roundPath code roundId)) as [->|Hne].
    + rewrite Hround in Hk. simpl in Hk. rewrite Hd in Hold. injection Hold as <-.
      eexists. rewrite lookup_insert_eq. split; [reflexivity |].
      destruct (data !! "revealed") as [v|] eqn:Hv.
      * destruct v as [| [|] | | | |]; try discriminate.
        apply lookup_union_Some_l. now rewrite lookup_fmap, Hv.
      * rewrite lookup_union_r; [exact Hr |]. now rewrite lookup_fmap, Hv.
    + exists d. now rewrite lookup_insert_ne.
  - destruct (s !! p) as [old|] eqn:Hold; [discriminate |]. injection Hc as <-.
    exists d. split; [|exact Hr].
    rewrite lookup_insert_ne; [exact Hd |]. intros ->. congruence.
  - injection Hc as <-. exists d. split; [|exact Hr].
    rewrite lookup_delete_ne; [exact Hd |]. intros ->. now rewrite Hround in Hk.
Qed.

Lemma evolves_keepsRevealed (w w' : World) (code roundId : string) :
  evolves keepsRevealed w w' ->
  revealedRound (docs w) code roundId -> revealedRound (docs w') code roundId.
Proof.
  intros H. induction H as [w' Hd _ | w1 w' wr t _ IH Hk Hc _]; intros Hr.
  - now rewrite Hd.
  - eapply commit_keepsRevealed; eauto.
Qed.

Lemma createRoom_from_writes (env : Env) (todo attempt : nat) (uid name : string) :
  writesOnly keepsRevealed (createRoom_from env todo attempt uid name).
Proof.
  revert attempt. induction todo as [|todo IH]; intros attempt; simpl.
  - apply writesOnly_throw.
  - apply writesOnly_bind; [apply writesOnly_generateRoomCode |]. intros code.
    apply writesOnly_catch.
    + apply writesOnly_bind; [now apply writesOnly_request |]. intros _.
      apply writesOnly_bind; [now apply writesOnly_request |]. intros _.
      apply writesOnly_ret.
    + intros e. destruct (JsString.includes e permissionDenied && (attempt <? 9));
        [apply IH | apply writesOnly_throw].
Qed.

(** Every write of every operation keeps a reveal. *)
Lemma run_writes (env : Env) (op : Op) (w : World) :
  evolves keepsRevealed w (run env op w).
Proof.
  destruct op; simpl.
  - apply (writesOnly_bind keepsRevealed (ensureAnonAuth env)
             (fun uid => createRoom_from env 10 0 uid name));
      [apply writesOnly_auth | intros; apply createRoom_from_writes].
  - apply (writesOnly_bind keepsRevealed (ensureAnonAuth env));
      [apply writesOnly_auth |]. intros uid.
    apply writesOnly_catch; [now apply writesOnly_request |].
    intros e. destruct (JsString.includes e permissionDenied); apply writesOnly_throw.
  - apply (writesOnly_bind keepsRevealed (ensureAnonAuth env));
      [apply writesOnly_auth |]. intros uid. now apply writesOnly_request.
  - apply (writesOnly_bind keepsRevealed (ensureAnonAuth env));
      [apply writesOnly_auth |]. intros uid. now apply writesOnly_request.
  - apply (writesOnly_bind keepsRevealed (ensureAnonAuth env));
      [apply writesOnly_auth |]. intros uid.
    apply writesOnly_bind; [now apply writesOnly_addDoc |]. intros roundId.
    apply writesOnly_bind; [now apply writesOnly_request |]. intros _.
    apply writesOnly_ret.
  - now apply (writesOnly_request keepsRevealed).
  - now apply (writesOnly_request keepsRevealed).
  - apply (writesOnly_bind keepsRevealed (ensureAnonAuth env));
      [apply writesOnly_auth |]. intros uid. now apply writesOnly_request.
Qed.

(** C1. Once the [revealed] flag of a round is true it stays true through
    every sequence of calls of the operations, by whatever clients: each
    write an operation commits creates a document, or updates a round
    without resetting the flag, or goes to a document that is not a round;
    the one write of [revealRound] sets [revealed] to [true]. *)
Theorem revealed_is_monotone (calls : list (Client * Op)) (w : World)
    (code roundId : string) :
  revealedRound (docs w) code roundId ->
  revealedRound (docs (session calls w)) code roundId
  /\ (forall env op w0, evolves keepsRevealed w0 (run env op w0))
  /\ (forall env c r w0,
        let w1 := snd (revealRound env c r w0) in
        let wr := WUpdate (roundPath (normalizeRoomCode env c) r)
                    (obj [("revealed", VBool true)]) in
        (fst (revealRound env c r w0) = Ok tt ->
         journal w1 = journal w0 ++ [wr]
         /\ revealedRound (docs w1) (normalizeRoomCode env c) r)
        /\ (forall e, fst (revealRound env c r w0) = Err e ->
                      journal w1 = journal w0 /\ docs w1 = docs w0)).
Proof.
  intros Hr. split; [|split].
  - revert w Hr. induction calls as [|[c op] rest IH]; intros w Hr; simpl; [exact Hr |].
    apply IH. eapply evolves_keepsRevealed; [apply run_writes | exact Hr].
  - intros env op w0. apply run_writes.
  - intros env c r w0 w1 wr. subst w1. unfold revealRound, updateDoc. fold wr.
    destruct (request_cases env wr w0) as [(s & Hc & _ & Hq) | (e & Hq)];
      rewrite Hq; simpl.
    + split; [|discriminate]. intros _. split; [reflexivity |].
      simpl in Hc. destruct (docs w0 !! _) as [old|]; [|discriminate].
      injection Hc as <-. eexists. rewrite lookup_insert_eq. split; [reflexivity |].
      apply lookup_union_Some_l. now rewrite lookup_fmap.
    + split; [discriminate | auto].
Qed.

Lemma revealed_sample :
  revealedRound
    (docs (session [(Scenario.bo, CastVote "J6J6" "round-H" (ofZ 13));
                    (Scenario.host, ClearCurrentRound "J6J6");
                    (Scenario.host, StartRound "J6J6" "AUTH-124");
                    (Scenario.newcomer, JoinRoom "j6j6" "Cy");
                    (Scenario.bo, TouchPresence "J6J6");
                    (Scenario.bo, LeaveRoom "J6J6");
                    (Scenario.host, RevealRound "J6J6" "round-H");
                    (Scenario.newcomer, CreateRoom "Di")]
             Scenario.shown))
    "J6J6" "round-H".
Proof.
  refine (proj1 (revealed_is_monotone _ Scenario.shown "J6J6" "round-H" _)).
  vm_compute. eexists. split; reflexivity.
Defined.

(** ** Creating a room *)

Section CreateRoom.

Context (env : Env).

(** One pass through the loop body whose first write the store refuses:
    the attempt costs four draws and one request and writes nothing. *)
Lemma attempt_refused (todo attempt : nat) (uid name : string) (w : World) :
  exists code w1,
    generateRoomCode env w = (Ok code, w1)
    /\ docs w1 = docs w /\ ticks w1 = 4 + ticks w
    /\ forall msg,
        verdict env (ticks w1) (docs w1) (WSet (roomPath code) (roomDoc code uid))
        = Some msg ->
        createRoom_from env (S todo) attempt uid name w
        = if JsString.includes msg permissionDenied && (attempt <? 9)
          then createRoom_from env todo (S attempt) uid name (tick w1)
          else (Err msg, tick w1).
Proof.
  destruct (generateRoomCode_spec env w)
    as (code & w1 & Hg & _ & _ & Hd & _ & _ & Ht).
  exists code, w1. repeat split; try assumption. intros msg Hv.
  cbn [createRoom_from]. unfold bind at 1.
  rewrite Hg. unfold catch, bind, setDoc, request. rewrite Hv.
  now destruct (JsString.includes msg permissionDenied && (attempt <? 9)).
Qed.

(** When the store refuses every request with the same permission failure,
    the loop makes its ten attempts and then throws that failure: the
    final [throw] of the function is never reached. *)
Lemma createRoom_from_all_refused (msg : string) (todo attempt : nat)
    (uid name : string) (w : World) :
  (forall n s wr, verdict env n s wr = Some msg) ->
  JsString.includes msg permissionDenied = true ->
  todo + attempt = 10 -> 0 < todo ->
  fst (createRoom_from env todo attempt uid name w) = Err msg
  /\ docs (snd (createRoom_from env todo attempt uid name w)) = docs w
  /\ ticks (snd (createRoom_from env todo attempt uid name w)) = 5 * todo + ticks w.
Proof.
  intros Hv Hmsg. revert attempt w.
  induction todo as [|todo IH]; intros attempt w Hsum Hpos; [lia |].
  destruct (attempt_refused todo attempt uid name w)
    as (code & w1 & _ & Hd & Ht & Hstep).
  rewrite (Hstep msg (Hv _ _ _)), Hmsg. cbn [andb].
  destruct (attempt <? 9) eqn:Hlt.
  - apply Nat.ltb_lt in Hlt.
    destruct (IH (S attempt) (tick w1)) as (Hr & Hdocs & Hticks); [lia | lia |].
    rewrite Hr, Hdocs, Hticks. cbn [docs ticks tick]. repeat split; [congruence | lia].
  - apply Nat.ltb_ge in Hlt. assert (todo = 0) as -> by lia.
    cbn [fst snd docs ticks tick]. repeat split; [congruence | lia].
Qed.

(** An error that is no permission failure ends the call at once. *)
Lemma createRoom_from_other_error (msg : string) (todo attempt : nat)
    (uid name : string) (w : World) :
  (forall s wr, verdict env (4 + ticks w) s wr = Some msg) ->
  JsString.includes msg permissionDenied = false ->
  fst (createRoom_from env (S todo) attempt uid name w) = Err msg
  /\ docs (snd (createRoom_from env (S todo) attempt uid name w)) = docs w
  /\ ticks (snd (createRoom_from env (S todo) attempt uid name w)) = 5 + ticks w.
Proof.
  intros Hv Hmsg.
  destruct (attempt_refused todo attempt uid name w)
    as (code & w1 & _ & Hd & Ht & Hstep).
  rewrite (Hstep msg), Hmsg; [|rewrite Ht; apply Hv].
  cbn [andb fst snd docs ticks tick]. repeat split; [congruence | lia].
Qed.

End CreateRoom.

(** A code that collides is replaced by a fresh one: Bo's first code is
    the code of Ann's room, the store refuses it, and the second attempt
    creates the room 6J6J. *)
Lemma createRoom_retry_sample :
  fst (createRoom Sample.env "Bo" (signedIn "bo" Scenario.room1)) = Ok "6J6J"
  /\ ticks Scenario.crowded = 11 + ticks Scenario.room1
  /\ is_Some (docs Scenario.crowded !! participantPath "6J6J" "bo")
  /\ docs Scenario.crowded !! roomPath "J6J6" = docs Scenario.room1 !! roomPath "J6J6".
Proof.
  repeat split; vm_compute; try reflexivity. eexists. reflexivity.
Qed.

Lemma createRoom_all_refused (env : Env) (msg name uid : string) (w : World) :
  (forall n s wr, verdict env n s wr = Some msg) ->
  JsString.includes msg permissionDenied = true ->
  fst (ensureAnonAuth env w) = Ok uid ->
  fst (createRoom env name w) = Err msg
  /\ docs (snd (createRoom env name w)) = docs w
  /\ ticks (snd (createRoom env name w)) = 50 + ticks w.
Proof.
  intros Hv Hmsg Hauth. unfold createRoom, bind.
  destruct (ensureAnonAuth_cases env w) as [(u & Ha & _) | (e & Ha)];
    rewrite Ha in Hauth |- *; [|discriminate].
  apply (createRoom_from_all_refused env msg 10 0 u name (signedIn u w));
    auto with arith.
Qed.

(** C4, the defect. When each of the ten generated codes names an existing
    room, [createRoom] makes its ten attempts (fifty steps: four draws and
    one request each), writes nothing, and fails with the store's
    permission failure of the tenth attempt, not with the error "Failed to
    create a unique room code. Please try again.". *)
Theorem createRoom_exhaustion_rethrows :
  let r := createRoom Sample.env "Cy" (signedIn "cy" Scenario.crowded) in
  fst r = Err "Missing or insufficient permissions."
  /\ fst r <> Err creationExhausted
  /\ ticks (snd r) = 50 + ticks Scenario.crowded
  /\ docs (snd r) = docs Scenario.crowded.
Proof.
  cbv zeta.
  assert (fst (createRoom Sample.env "Cy" (signedIn "cy" Scenario.crowded))
          = Err "Missing or insufficient permissions.") as H
    by (vm_compute; reflexivity).
  split; [exact H |]. split; [rewrite H; discriminate |].
  split; vm_compute; reflexivity.
Qed.

(** * Further properties of the access layer and the screens *)

(** ** Signing in *)

(** X1. Once [ensureAnonAuth] has returned a user, that user is the current
    user and every later call returns the same user without signing in
    again, whatever anonymous sign-in would answer by then; the call never
    touches the database. A failed call leaves the world as it was, and the
    error is the one of anonymous sign-in. *)
Theorem ensureAnonAuth_stable (env : Env) (w w' : World) (uid : string) :
  ensureAnonAuth env w = (Ok uid, w') ->
  currentUser w' = Some uid
  /\ docs w' = docs w /\ journal w' = journal w /\ ticks w' = ticks w
  /\ (forall env', ensureAnonAuth env' w' = (Ok uid, w'))
  /\ (forall env' e w2,
        ensureAnonAuth env' w = (Err e, w2) ->
        w2 = w /\ currentUser w = None /\ signIn env' = Err e).
Proof.
  intros H.
  assert (forall env' e w2,
             ensureAnonAuth env' w = (Err e, w2) ->
             w2 = w /\ currentUser w = None /\ signIn env' = Err e) as Herr.
  { intros env' e w2. unfold ensureAnonAuth.
    destruct (currentUser w); [discriminate |].
    destruct (signIn env'); [discriminate |]. now intros [= <- <-]. }
  assert (currentUser w' = Some uid /\ docs w' = docs w /\ journal w' = journal w
          /\ ticks w' = ticks w) as (Hu & Hd & Hj & Ht).
  { unfold ensureAnonAuth in H. destruct (currentUser w) as [u|] eqn:Hu.
    - injection H as <- <-. auto.
    - destruct (signIn env); [|discriminate]. injection H as <- <-. auto. }
  split; [exact Hu |]. split; [exact Hd |]. split; [exact Hj |]. split; [exact Ht |].
  split; [|exact Herr].
  intros env'. unfold ensureAnonAuth. now rewrite Hu.
Qed.

Lemma ensureAnonAuth_stable_witness :
  fst (ensureAnonAuth (Sample.offlineFrom 0) (signedIn "anon" Sample.world0)) = Ok "anon".
Proof.
  destruct (ensureAnonAuth_stable Sample.env Sample.world0
              (signedIn "anon" Sample.world0) "anon" eq_refl)
    as (_ & _ & _ & _ & H & _).
  now rewrite H.
Defined.

(** ** Normalized codes *)

Lemma trimEnd_keeps_head (c : ascii) (s : string) :
  JsString.isWhiteSpace c = false ->
  exists t, JsString.trimEnd (String c s) = String c t.
Proof.
  intros Hc. simpl. destruct (JsString.trimEnd s); rewrite ?Hc; eauto.
Qed.

Lemma trimStart_trimEnd_trimStart (s : string) :
  JsString.trimStart (JsString.trimEnd (JsString.trimStart s))
  = JsString.trimEnd (JsString.trimStart s).
Proof.
  induction s as [|c s IH]; [reflexivity |].
  simpl JsString.trimStart at 2 3. destruct (JsString.isWhiteSpace c) eqn:Hc; [exact IH |].
  destruct (trimEnd_keeps_head c s Hc) as [t ->]. simpl. now rewrite Hc.
Qed.

Lemma trimEnd_idempotent (s : string) :
  JsString.trimEnd (JsString.trimEnd s) = JsString.trimEnd s.
Proof.
  induction s as [|c s IH]; [reflexivity |]. simpl.
  destruct (JsString.trimEnd s) as [|a t] eqn:E.
  - destruct (JsString.isWhiteSpace c) eqn:Hc; [reflexivity |]. simpl. now rewrite Hc.
  - simpl in IH |- *. destruct (JsString.trimEnd t) eqn:E2.
    + destruct (JsString.isWhiteSpace a); [discriminate |]. now rewrite IH.
    + now rewrite IH.
Qed.

(** Trimming twice is trimming once. *)
Lemma trim_idempotent (s : string) :
  JsString.trim (JsString.trim s) = JsString.trim s.
Proof.
  unfold JsString.trim. rewrite trimStart_trimEnd_trimStart. apply trimEnd_idempotent.
Qed.

Lemma upperAscii_whitespace (c : ascii) :
  JsString.isWhiteSpace (JsString.upperAscii c) = JsString.isWhiteSpace c.
Proof. destruct c as [[] [] [] [] [] [] [] []]; reflexivity. Qed.

Lemma upperAscii_idempotent (c : ascii) :
  JsString.upperAscii (JsString.upperAscii c) = JsString.upperAscii c.
Proof. destruct c as [[] [] [] [] [] [] [] []]; reflexivity. Qed.

Lemma toUpperAscii_idempotent (s : string) :
  JsString.toUpperAscii (JsString.toUpperAscii s) = JsString.toUpperAscii s.
Proof.
  induction s as [|c s IH]; simpl; [reflexivity |].
  now rewrite upperAscii_idempotent, IH.
Qed.

Lemma toUpperAscii_trimStart (s : string) :
  JsString.trimStart (JsString.toUpperAscii s)
  = JsString.toUpperAscii (JsString.trimStart s).
Proof.
  induction s as [|c s IH]; simpl; [reflexivity |].
  rewrite upperAscii_whitespace. now destruct (JsString.isWhiteSpace c).
Qed.

Lemma toUpperAscii_trimEnd (s : string) :
  JsString.trimEnd (JsString.toUpperAscii s)
  = JsString.toUpperAscii (JsString.trimEnd s).
Proof.
  induction s as [|c s IH]; simpl; [reflexivity |].
  rewrite IH, upperAscii_whitespace.
  destruct (JsString.trimEnd s); simpl; [|reflexivity].
  now destruct (JsString.isWhiteSpace c).
Qed.

Lemma toUpperAscii_trim (s : string) :
  JsString.trim (JsString.toUpperAscii s) = JsString.toUpperAscii (JsString.trim s).
Proof.
  unfold JsString.trim. now rewrite toUpperAscii_trimStart, toUpperAscii_trimEnd.
Qed.

(** X2. With an upper-casing that is idempotent and that commutes with
    trimming, normalizing a room code twice is normalizing it once; so a
    caller that has normalized the code already, as the lobby does before
    [joinRoom], gets the same behaviour from every operation as with the
    raw code. *)
Theorem normalizeRoomCode_idempotent (env : Env) (code : string) :
  (forall s, toUpperCase env (toUpperCase env s) = toUpperCase env s) ->
  (forall s, JsString.trim (toUpperCase env s) = toUpperCase env (JsString.trim s)) ->
  let c := normalizeRoomCode env code in
  normalizeRoomCode env c = c
  /\ (forall name, joinRoom env c name = joinRoom env code name)
  /\ touchPresence env c = touchPresence env code
  /\ leaveRoom env c = leaveRoom env code
  /\ (forall ticket, startRound env c ticket = startRound env code ticket)
  /\ (forall roundId, revealRound env c roundId = revealRound env code roundId)
  /\ clearCurrentRound env c = clearCurrentRound env code
  /\ (forall roundId value,
        castVote env c roundId value = castVote env code roundId value).
Proof.
  intros Hidem Hcomm c.
  assert (normalizeRoomCode env c = c) as H.
  { subst c. unfold normalizeRoomCode. now rewrite Hcomm, trim_idempotent, Hidem. }
  split; [exact H |].
  unfold joinRoom, touchPresence, leaveRoom, startRound, revealRound,
    clearCurrentRound, castVote.
  rewrite H. fold c. repeat split.
Qed.

Lemma normalizeRoomCode_idempotent_witness :
  normalizeRoomCode Sample.env (normalizeRoomCode Sample.env " j6j6 ") = "J6J6".
Proof.
  destruct (normalizeRoomCode_idempotent Sample.env " j6j6 ") as [H _].
  - exact toUpperAscii_idempotent.
  - exact toUpperAscii_trim.
  - cbv zeta in H. rewrite H. reflexivity.
Defined.

(** ** What a created room looks like *)

Lemma createRoom_from_ok (env : Env) (todo attempt : nat) (uid name : string)
    (w w' : World) (code : string) :
  createRoom_from env todo attempt uid name w = (Ok code, w') ->
  String.length code = 4
  /\ Forall inAlphabet (list_ascii_of_string code)
  /\ currentUser w' = currentUser w
  /\ ticks w' <= 6 * todo + ticks w
  /\ exists t t' old l,
      docs w' !! roomPath code = Some (resolve t <$> roomDoc code uid)
      /\ docs w' !! participantPath code uid
         = Some ((resolve t' <$> participantDoc uid name) ∪ old)
      /\ journal w' = journal w ++ l
                      ++ [WSet (roomPath code) (roomDoc code uid);
                          WMerge (participantPath code uid) (participantDoc uid name)].
Proof.
  revert attempt w. induction todo as [|todo IH]; intros attempt w H; simpl in H.
  - discriminate.
  - unfold bind at 1 in H.
    destruct (generateRoomCode_spec env w)
      as (c & w1 & Hg & Hlen & Hal & Hd & Hu & Hj & Ht).
    rewrite Hg in H. clear Hg.
    unfold catch, bind, setDoc, setDocMerge, ret, throw in H.
    step_request.
    + step_request.
      * injection H as <- <-. cbn [currentUser ticks journal docs committed].
        split; [assumption |]. split; [assumption |]. split; [assumption |].
        split; [lia |].
        cbn [commit] in Hcommit, Hcommit0. injection Hcommit as <-.
        injection Hcommit0 as <-.
        eexists _, _, _, []. split; [|split].
        -- rewrite lookup_insert_ne by discriminate. apply lookup_insert_eq.
        -- apply lookup_insert_eq.
        -- rewrite Hj, <- app_assoc. reflexivity.
      * destruct (JsString.includes e permissionDenied && (attempt <? 9));
          [|discriminate].
        apply IH in H as (Hl' & Ha' & Hu' & Ht' & t & t' & old & l & Hr & Hp & Hj').
        cbn [currentUser ticks journal docs committed tick] in *.
        split; [assumption |]. split; [assumption |]. split; [congruence |].
        split; [lia |].
        exists t, t', old, ([WSet (roomPath c) (roomDoc c uid)] ++ l).
        split; [assumption |]. split; [assumption |].
        rewrite Hj', Hj, <- !app_assoc. reflexivity.
    + destruct (JsString.includes e permissionDenied && (attempt <? 9));
        [|discriminate].
      apply IH in H as (Hl' & Ha' & Hu' & Ht' & t & t' & old & l & Hr & Hp & Hj').
      cbn [currentUser ticks journal docs committed tick] in *.
      split; [assumption |]. split; [assumption |]. split; [congruence |].
      split; [lia |].
      exists t, t', old, l. split; [assumption |]. split; [assumption |].
      rewrite Hj', Hj. reflexivity.
Qed.

(** X3. When [createRoom] returns a code, the code has four symbols of the
    alphabet; the room document under it is the one just written (its code
    is the returned code, its creator the caller, its current round null,
    its two timestamps the time of the write), whatever was stored there
    before; the caller has a participant document under the room with the
    caller's uid; the last two writes committed are that room and that
    participant; and the call took at most ten attempts (sixty steps). *)
Theorem createRoom_success (env : Env) (name : string) (w w' : World) (code : string) :
  createRoom env name w = (Ok code, w') ->
  exists uid t room participant l,
    fst (ensureAnonAuth env w) = Ok uid
    /\ currentUser w' = Some uid
    /\ String.length code = 4
    /\ Forall inAlphabet (list_ascii_of_string code)
    /\ docs w' !! roomPath code = Some room
    /\ room = resolve t <$> roomDoc code uid
    /\ room !! "code" = Some (VStr code)
    /\ room !! "createdBy" = Some (VStr uid)
    /\ room !! "currentRoundId" = Some VNull
    /\ room !! "createdAt" = Some (VTime t)
    /\ room !! "updatedAt" = Some (VTime t)
    /\ docs w' !! participantPath code uid = Some participant
    /\ participant !! "uid" = Some (VStr uid)
    /\ journal w' = journal w ++ l
                    ++ [WSet (roomPath code) (roomDoc code uid);
                        WMerge (participantPath code uid) (participantDoc uid name)]
    /\ ticks w' <= 60 + ticks w.
Proof.
  intros H. unfold createRoom, bind in H.
  destruct (ensureAnonAuth_cases env w) as [(uid & Ha & _) | (e & Ha)];
    rewrite Ha in H; [|discriminate].
  apply createRoom_from_ok in H
      as (Hl & Hal & Hu & Ht & t & t' & old & l & Hr & Hp & Hj).
  exists uid, t, (resolve t <$> roomDoc code uid),
    ((resolve t' <$> participantDoc uid name) ∪ old), l.
  rewrite Ha. cbn [fst currentUser signedIn ticks journal] in *.
  split; [reflexivity |]. split; [exact Hu |]. split; [exact Hl |].
  split; [exact Hal |]. split; [exact Hr |]. split; [reflexivity |].
  rewrite !lookup_fmap.
  split; [reflexivity |]. split; [reflexivity |]. split; [reflexivity |].
  split; [reflexivity |]. split; [reflexivity |]. split; [exact Hp |].
  split; [|split; [exact Hj | lia]].
  apply lookup_union_Some_l. now rewrite lookup_fmap.
Qed.

Lemma createRoom_success_witness :
  exists room,
    docs Scenario.crowded !! roomPath "6J6J" = Some room
    /\ room !! "createdBy" = Some (VStr "bo")
    /\ room !! "currentRoundId" = Some VNull.
Proof.
  destruct (createRoom_success Sample.env "Bo" (signedIn "bo" Scenario.room1)
              Scenario.crowded "6J6J")
    as (uid & t & room & p & l & Ha & _ & _ & _ & Hr & _ & _ & Hc & Hn & _).
  - vm_compute. reflexivity.
  - vm_compute in Ha. injection Ha as <-. exists room. auto.
Defined.

Lemma inAlphabet_plain (c : ascii) :
  inAlphabet c -> JsString.isWhiteSpace c = false /\ JsString.upperAscii c = c.
Proof.
  intros Hc.
  assert (forallb (fun c => negb (JsString.isWhiteSpace c)
                            && Ascii.eqb (JsString.upperAscii c) c)
            (list_ascii_of_string chars) = true) as H by reflexivity.
  rewrite forallb_forall in H. specialize (H c Hc).
  apply andb_prop in H as [H1 H2]. split.
  - now destruct (JsString.isWhiteSpace c).
  - now apply Ascii.eqb_eq.
Qed.

Lemma trim_alphabet (s : string) :
  Forall inAlphabet (list_ascii_of_string s) -> JsString.trim s = s.
Proof.
  intros H. unfold JsString.trim.
  assert (JsString.trimStart s = s) as ->.
  { destruct s as [|c s]; [reflexivity |]. simpl in *.
    apply Forall_cons in H as [Hc _]. apply inAlphabet_plain in Hc as [-> _].
    reflexivity. }
  induction s as [|c s IH]; [reflexivity |]. simpl in *.
  apply Forall_cons in H as [Hc H]. rewrite (IH H).
  apply inAlphabet_plain in Hc as [-> _]. now destruct s.
Qed.

Lemma toUpperAscii_alphabet (s : string) :
  Forall inAlphabet (list_ascii_of_string s) -> JsString.toUpperAscii s = s.
Proof.
  induction s as [|c s IH]; intros H; [reflexivity |]. simpl in *.
  apply Forall_cons in H as [Hc H]. rewrite (IH H).
  apply inAlphabet_plain in Hc as [_ ->]. reflexivity.
Qed.

(** X4. With an upper-casing that leaves words over the alphabet as they
    are, the code [createRoom] returns is its own normal form: every
    operation called with it addresses the room that was created, and that
    room exists. *)
Theorem createRoom_code_normalized (env : Env) (name : string) (w w' : World)
    (code : string) :
  (forall s, Forall inAlphabet (list_ascii_of_string s) -> toUpperCase env s = s) ->
  createRoom env name w = (Ok code, w') ->
  normalizeRoomCode env code = code
  /\ is_Some (docs w' !! roomPath (normalizeRoomCode env code)).
Proof.
  intros Hup H. unfold createRoom, bind in H.
  destruct (ensureAnonAuth_cases env w) as [(uid & Ha & _) | (e & Ha)];
    rewrite Ha in H; [|discriminate].
  apply createRoom_from_ok in H as (_ & Hal & _ & _ & t & _ & _ & _ & Hr & _).
  assert (normalizeRoomCode env code = code) as ->.
  { unfold normalizeRoomCode. rewrite (trim_alphabet _ Hal). now apply Hup. }
  split; [reflexivity |]. rewrite Hr. eauto.
Qed.

Lemma createRoom_code_normalized_witness :
  normalizeRoomCode Sample.env "6J6J" = "6J6J".
Proof.
  destruct (createRoom_code_normalized Sample.env "Bo" (signedIn "bo" Scenario.room1)
              Scenario.crowded "6J6J") as [H _].
  - exact toUpperAscii_alphabet.
  - vm_compute. reflexivity.
  - exact H.
Defined.

(** ** Every code can be generated *)

Lemma In_get (s : string) (c : ascii) :
  In c (list_ascii_of_string s) ->
  exists i, i < String.length s /\ String.get i s = Some c.
Proof.
  induction s as [|a s IH]; simpl; [tauto |].
  intros [->|H].
  - exists 0. split; [lia | reflexivity].
  - destruct (IH H) as (i & Hi & Hg). exists (S i). split; [lia | exact Hg].
Qed.

Lemma appendCharAt_drawAt (out : string) (i : nat) (c : ascii) :
  i < 32 -> String.get i chars = Some c ->
  appendCharAt out (pick (drawAt i)) = out +:+ String c "".
Proof.
  intros Hi Hg. unfold appendCharAt.
  assert (pick (drawAt i) = N.of_nat i) as ->.
  { unfold drawAt.
    destruct (Bool.bool_dec (N.of_nat i <? 2 ^ 5)%N true) as [H|H].
    - unfold pick. cbn [numer expo].
      change (N.of_nat (String.length chars)) with 32%N.
      change (2 ^ 5)%N with 32%N. now rewrite N.div_mul.
    - exfalso. apply H. apply N.ltb_lt. change (2 ^ 5)%N with 32%N. lia. }
  now rewrite Nat2N.id, Hg.
Qed.

(** X5. Every word of four symbols of the alphabet is the code that
    [generateRoomCode] returns for suitable results of [Math.random()]: no
    symbol and no position is out of the generator's reach. *)
Theorem generateRoomCode_reaches (env : Env) (w : World) (code : string) :
  String.length code = 4 ->
  Forall inAlphabet (list_ascii_of_string code) ->
  exists rnd, fst (generateRoomCode (withRandom rnd env) w) = Ok code.
Proof.
  intros Hlen Hal.
  destruct code as [|c0 [|c1 [|c2 [|c3 [|? ?]]]]]; try discriminate.
  simpl in Hal.
  apply Forall_cons in Hal as [H0 Hal]. apply Forall_cons in Hal as [H1 Hal].
  apply Forall_cons in Hal as [H2 Hal]. apply Forall_cons in Hal as [H3 _].
  apply In_get in H0 as (i0 & L0 & G0). apply In_get in H1 as (i1 & L1 & G1).
  apply In_get in H2 as (i2 & L2 & G2). apply In_get in H3 as (i3 & L3 & G3).
  change (String.length chars) with 32 in *.
  exists (drawsFrom (ticks w) i0 i1 i2 i3).
  unfold generateRoomCode. cbn [generateRoomCode_from]. unfold bind, mathRandom, ret.
  cbn [random withRandom ticks tick fst]. unfold drawsFrom.
  replace (ticks w - ticks w) with 0 by lia.
  replace (S (ticks w) - ticks w) with 1 by lia.
  replace (S (S (ticks w)) - ticks w) with 2 by lia.
  replace (S (S (S (ticks w))) - ticks w) with 3 by lia.
  rewrite (appendCharAt_drawAt _ i0 c0), (appendCharAt_drawAt _ i1 c1),
    (appendCharAt_drawAt _ i2 c2), (appendCharAt_drawAt _ i3 c3) by assumption.
  reflexivity.
Qed.

Lemma generateRoomCode_reaches_witness :
  exists rnd, fst (generateRoomCode (withRandom rnd Sample.env) Sample.world0) = Ok "A9Z2".
Proof.
  apply (generateRoomCode_reaches Sample.env Sample.world0 "A9Z2").
  - reflexivity.
  - repeat constructor; unfold inAlphabet; simpl; tauto.
Defined.

(** ** Where the errors of [createRoom] come from *)

Lemma request_set_err (env : Env) (wr : Write) (w w' : World) (e : string) :
  (forall t s, exists s', commit t wr s = Ok s') ->
  request env wr w = (Err e, w') ->
  verdict env (ticks w) (docs w) wr = Some e.
Proof.
  intros Hc. unfold request.
  destruct (verdict env (ticks w) (docs w) wr); [now intros [= -> _] |].
  destruct (Hc (now env (ticks w)) (docs w)) as [s' ->]. discriminate.
Qed.

Lemma createRoom_from_err (env : Env) (todo attempt : nat) (uid name : string)
    (w w' : World) (e : string) :
  todo + attempt = 10 -> 0 < todo ->
  createRoom_from env todo attempt uid name w = (Err e, w') ->
  exists n s wr, verdict env n s wr = Some e.
Proof.
  revert attempt w. induction todo as [|todo IH]; intros attempt w Hsum Hpos H; [lia |].
  simpl in H. unfold bind at 1 in H.
  destruct (generateRoomCode_spec env w) as (c & w1 & Hg & _).
  rewrite Hg in H. clear Hg.
  unfold catch, bind, setDoc, setDocMerge, ret, throw in H.
  destruct (request env (WSet (roomPath c) (roomDoc c uid)) w1)
    as [[[]|e1] w2] eqn:R1.
  - destruct (request env (WMerge (participantPath c uid) (participantDoc uid name)) w2)
      as [[[]|e2] w3] eqn:R2; [discriminate |].
    apply request_set_err in R2; [|intros; simpl; eauto].
    destruct (JsString.includes e2 permissionDenied) eqn:Hi; simpl in H.
    + destruct (attempt <? 9) eqn:Hlt.
      * apply Nat.ltb_lt in Hlt. apply IH in H; [exact H | lia | lia].
      * injection H as <- _. eauto.
    + injection H as <- _. eauto.
  - apply request_set_err in R1; [|intros; simpl; eauto].
    destruct (JsString.includes e1 permissionDenied) eqn:Hi; simpl in H.
    + destruct (attempt <? 9) eqn:Hlt.
      * apply Nat.ltb_lt in Hlt. apply IH in H; [exact H | lia | lia].
      * injection H as <- _. eauto.
    + injection H as <- _. eauto.
Qed.

(** X6. Every error of [createRoom] is the error of anonymous sign-in or
    the error with which the store refused a write: the function never
    fails with an error of its own, the [throw] after its loop is not
    reached. *)
Theorem createRoom_error_source (env : Env) (name : string) (w w' : World) (e : string) :
  createRoom env name w = (Err e, w') ->
  (currentUser w = None /\ signIn env = Err e)
  \/ (exists n s wr, verdict env n s wr = Some e).
Proof.
  intros H. unfold createRoom, bind in H.
  destruct (ensureAnonAuth env w) as [[uid|e0] w0] eqn:Ha.
  - right. eapply (createRoom_from_err env 10 0); [reflexivity | lia | exact H].
  - injection H as <- _. left. unfold ensureAnonAuth in Ha.
    destruct (currentUser w); [discriminate |].
    destruct (signIn env); [discriminate |]. now injection Ha as ->.
Qed.

Lemma createRoom_error_source_witness :
  exists n s wr, verdict Sample.env n s wr = Some "Missing or insufficient permissions.".
Proof.
  destruct (createRoom_error_source Sample.env "Cy" (signedIn "cy" Scenario.crowded)
              (snd (createRoom Sample.env "Cy" (signedIn "cy" Scenario.crowded)))
              "Missing or insufficient permissions.") as [[H _] | H].
  - vm_compute. reflexivity.
  - discriminate H.
  - exact H.
Defined.

(** ** Joining, pinging and leaving *)


Lemma participantDoc_fields (t : nat) (uid name : string) (old : Doc) :
  let p := (resolve t <$> participantDoc uid name) ∪ old in
  p !! "uid" = Some (VStr uid)
  /\ p !! "name" = Some (VStr (storedName name))
  /\ p !! "joinedAt" = Some (VTime t)
  /\ p !! "lastSeenAt" = Some (VTime t)
  /\ (forall f, f <> "uid" -> f <> "name" -> f <> "joinedAt" -> f <> "lastSeenAt" ->
                p !! f = old !! f).
Proof.
  intros p. subst p. split; [|split; [|split; [|split]]].
  - apply lookup_union_Some_l. now rewrite lookup_fmap.
  - apply participantDoc_name.
  - apply lookup_union_Some_l. now rewrite lookup_fmap.
  - apply lookup_union_Some_l. now rewrite lookup_fmap.
  - intros f H1 H2 H3 H4. apply lookup_union_r. rewrite lookup_fmap.
    unfold participantDoc, obj. simpl.
    now rewrite !lookup_insert_ne, lookup_empty by congruence.
Qed.

(** X7. A successful [joinRoom] leaves, under the normalized code, a
    participant document of the caller with the caller's uid, the stored
    name, and the time of the write as [joinedAt] and as [lastSeenAt], also
    when the caller had joined before: a re-join overwrites [joinedAt];
    fields the call does not write are kept. The participants of the room
    gain the caller if the caller was not among them and keep their number
    otherwise; no other document changes. *)
Theorem joinRoom_upsert (env : Env) (code name : string) (w w' : World) :
  joinRoom env code name w = (Ok tt, w') ->
  let c := normalizeRoomCode env code in
  exists uid t p,
    fst (ensureAnonAuth env w) = Ok uid
    /\ currentUser w' = Some uid
    /\ docs w' !! participantPath c uid = Some p
    /\ p !! "uid" = Some (VStr uid)
    /\ p !! "name" = Some (VStr (storedName name))
    /\ p !! "joinedAt" = Some (VTime t)
    /\ p !! "lastSeenAt" = Some (VTime t)
    /\ (forall old f,
          docs w !! participantPath c uid = Some old ->
          f <> "uid" -> f <> "name" -> f <> "joinedAt" -> f <> "lastSeenAt" ->
          p !! f = old !! f)
    /\ docsIn (participantsPath c) (docs w')
       = <[uid := p]> (docsIn (participantsPath c) (docs w))
    /\ size (docsIn (participantsPath c) (docs w'))
       = match docs w !! participantPath c uid with
         | Some _ => size (docsIn (participantsPath c) (docs w))
         | None => S (size (docsIn (participantsPath c) (docs w)))
         end
    /\ (forall q, q <> participantPath c uid -> docs w' !! q = docs w !! q).
Proof.
  intros H c. unfold joinRoom, bind, catch, setDocMerge, throw in H. fold c in H.
  destruct (ensureAnonAuth_cases env w) as [(uid & Ha & _) | (e & Ha)];
    rewrite Ha in H; cbv beta iota in H; [|discriminate].
  step_request; [|destruct (JsString.includes e permissionDenied); discriminate].
  injection H as <-. cbn [commit] in Hcommit. injection Hcommit as <-.
  cbn [docs signedIn committed currentUser] in *.
  destruct (participantDoc_fields (now env (ticks w)) uid name
              (default ∅ (docs w !! participantPath c uid)))
    as (F1 & F2 & F3 & F4 & F5).
  exists uid, (now env (ticks w)),
    ((resolve (now env (ticks w)) <$> participantDoc uid name)
     ∪ default ∅ (docs w !! participantPath c uid)).
  rewrite Ha.
  split; [reflexivity |]. split; [reflexivity |].
  split; [apply lookup_insert_eq |].
  split; [exact F1 |]. split; [exact F2 |]. split; [exact F3 |]. split; [exact F4 |].
  split; [|split; [|split]].
  - intros old' f Hold. rewrite Hold in F5 |- *. apply F5.
  - apply (docsIn_insert (participantsPath c)).
  - change (participantPath c uid) with (participantsPath c ++ [uid]).
    rewrite docsIn_insert, <- lookup_docsIn.
    destruct (docsIn (participantsPath c) (docs w) !! uid) eqn:E.
    + now apply map_size_insert_Some.
    + now apply map_size_insert_None.
  - intros q Hq. now apply lookup_insert_ne.
Qed.

Lemma joinRoom_upsert_witness :
  size (docsIn (participantsPath "J6J6") (docs Scenario.joined)) = 2.
Proof.
  destruct (joinRoom_upsert Sample.env " j6j6 " "Bo" (signedIn "bo" Scenario.room1)
              Scenario.joined)
    as (uid & t & p & Ha & _ & _ & _ & _ & _ & _ & _ & _ & Hsize & _).
  - vm_compute. reflexivity.
  - vm_compute in Ha. injection Ha as <-.
    cbv zeta in Hsize. etransitivity; [exact Hsize |]. vm_compute. reflexivity.
Defined.



(** X9. A successful [touchPresence] sets [lastSeenAt] of the caller's
    participant document to the time of the write and keeps every other
    field; when the caller has no participant document (never joined, or
    left), it creates one that holds [lastSeenAt] alone, without uid and
    without name. No other document changes. *)
Theorem touchPresence_upsert (env : Env) (code : string) (w w' : World) :
  touchPresence env code w = (Ok tt, w') ->
  let c := normalizeRoomCode env code in
  exists uid t p,
    fst (ensureAnonAuth env w) = Ok uid
    /\ docs w' !! participantPath c uid = Some p
    /\ p !! "lastSeenAt" = Some (VTime t)
    /\ (forall old f,
          docs w !! participantPath c uid = Some old ->
          f <> "lastSeenAt" -> p !! f = old !! f)
    /\ (docs w !! participantPath c uid = None ->
        p = {["lastSeenAt" := VTime t]}
        /\ p !! "uid" = None /\ p !! "name" = None /\ p !! "joinedAt" = None)
    /\ (forall q, q <> participantPath c uid -> docs w' !! q = docs w !! q).
Proof.
  intros H c. unfold touchPresence, bind, setDocMerge in H. fold c in H.
  destruct (ensureAnonAuth_cases env w) as [(uid & Ha & _) | (e & Ha)];
    rewrite Ha in H; cbv beta iota in H; [|discriminate].
  step_request; [|discriminate].
  injection H as <-. cbn [commit] in Hcommit. injection Hcommit as <-.
  cbn [docs signedIn committed] in *.
  exists uid, (now env (ticks w)),
    ((resolve (now env (ticks w)) <$> obj [("lastSeenAt", VServerTimestamp)])
     ∪ default ∅ (docs w !! participantPath c uid)).
  rewrite Ha.
  split; [reflexivity |]. split; [apply lookup_insert_eq |].
  split; [apply lookup_union_Some_l; now rewrite lookup_fmap |].
  split; [|split].
  - intros old f Hold Hf. rewrite Hold. cbn [default].
    apply lookup_union_r. rewrite lookup_fmap. unfold obj. simpl.
    now rewrite lookup_insert_ne, lookup_empty by congruence.
  - intros Hnone. rewrite Hnone. cbn [default].
    rewrite (right_id_L ∅ (∪)).
    assert (resolve (now env (ticks w)) <$> obj [("lastSeenAt", VServerTimestamp)]
            = ({["lastSeenAt" := VTime (now env (ticks w))]} : Doc)) as ->.
    { unfold obj. simpl. rewrite fmap_insert, fmap_empty. reflexivity. }
    repeat split; now rewrite lookup_singleton_ne.
  - intros q Hq. now apply lookup_insert_ne.
Qed.

Lemma touchPresence_upsert_witness :
  exists p,
    docs (snd (touchPresence Sample.env "J6J6" (signedIn "cy" Scenario.room1)))
      !! participantPath "J6J6" "cy" = Some p
    /\ p !! "name" = None.
Proof.
  destruct (touchPresence_upsert Sample.env "J6J6" (signedIn "cy" Scenario.room1)
              (snd (touchPresence Sample.env "J6J6" (signedIn "cy" Scenario.room1))))
    as (uid & t & p & Ha & Hp & _ & _ & Hnew & _).
  - vm_compute. reflexivity.
  - vm_compute in Ha. injection Ha as <-. exists p. split; [exact Hp |].
    apply Hnew. vm_compute. reflexivity.
Defined.

(** ** Updates *)

Lemma updateDoc_effect (env : Env) (p : Path) (data : Doc) (w : World) :
  let w' := snd (updateDoc env p data w) in
  dom (docs w') = dom (docs w)
  /\ currentUser w' = currentUser w
  /\ (forall q, q <> p -> docs w' !! q = docs w !! q)
  /\ (docs w !! p = None ->
      docs w' = docs w /\ exists e, fst (updateDoc env p data w) = Err e)
  /\ (fst (updateDoc env p data w) = Ok tt ->
      exists old, docs w !! p = Some old
                  /\ docs w' = <[p := (resolve (now env (ticks w)) <$> data) ∪ old]> (docs w)).
Proof.
  unfold updateDoc.
  destruct (request_cases env (WUpdate p data) w) as [(s & Hc & _ & Hr) | (e & Hr)];
    rewrite Hr; cbn [fst snd docs currentUser committed tick].
  - cbn [commit] in Hc. destruct (docs w !! p) as [old|] eqn:Hold; [|discriminate].
    injection Hc as <-.
    split; [|split; [reflexivity | split; [|split]]].
    + rewrite dom_insert_L. apply elem_of_dom_2 in Hold.
      apply set_eq. intros q. rewrite elem_of_union, elem_of_singleton.
      split; [intros [->|H]; assumption | auto].
    + intros q Hq. now apply lookup_insert_ne.
    + discriminate.
    + intros _. eauto.
  - split; [reflexivity |]. split; [reflexivity |]. split; [reflexivity |].
    split; [eauto | discriminate].
Qed.

(** X10. [revealRound] and [clearCurrentRound] never add or remove a
    document and never sign in; on a round, respectively a room, that does
    not exist they fail and change nothing; and revealing a round that the
    same call has revealed before changes nothing. *)
Theorem updates_never_create (env : Env) (w : World) :
  (forall code roundId,
      let c := normalizeRoomCode env code in
      let w' := snd (revealRound env code roundId w) in
      dom (docs w') = dom (docs w)
      /\ currentUser w' = currentUser w
      /\ (docs w !! roundPath c roundId = None ->
          docs w' = docs w /\ exists e, fst (revealRound env code roundId w) = Err e)
      /\ (fst (revealRound env code roundId w) = Ok tt ->
          docs (snd (revealRound env code roundId w')) = docs w'))
  /\ (forall code,
         let c := normalizeRoomCode env code in
         let w' := snd (clearCurrentRound env code w) in
         dom (docs w') = dom (docs w)
         /\ currentUser w' = currentUser w
         /\ (docs w !! roomPath c = None ->
             docs w' = docs w /\ exists e, fst (clearCurrentRound env code w) = Err e)).
Proof.
  split.
  - intros code roundId c w'. subst w'. unfold revealRound. fold c.
    destruct (updateDoc_effect env (roundPath c roundId) (obj [("revealed", VBool true)]) w)
      as (Hdom & Hu & _ & Hnone & Hok).
    split; [exact Hdom |]. split; [exact Hu |]. split; [exact Hnone |].
    intros H. destruct (Hok H) as (old & Hold & Hd).
    set (w1 := snd (updateDoc env (roundPath c roundId) (obj [("revealed", VBool true)]) w))
      in *.
    destruct (updateDoc_effect env (roundPath c roundId) (obj [("revealed", VBool true)]) w1)
      as (_ & _ & _ & _ & Hok1).
    destruct (fst (updateDoc env (roundPath c roundId) (obj [("revealed", VBool true)]) w1))
      as [[]|e] eqn:E.
    + destruct (Hok1 eq_refl) as (old1 & Hold1 & Hd1). rewrite Hd1.
      rewrite Hd, lookup_insert_eq in Hold1. injection Hold1 as <-.
      rewrite Hd, insert_insert_eq. f_equal.
      assert (forall t, resolve t <$> obj [("revealed", VBool true)]
                        = ({["revealed" := VBool true]} : Doc)) as Hres.
      { intros t. unfold obj. simpl. now rewrite fmap_insert, fmap_empty. }
      rewrite !Hres, (assoc_L (∪)). now rewrite (idemp (∪)).
    + destruct (request_cases env (WUpdate (roundPath c roundId)
                                     (obj [("revealed", VBool true)])) w1)
        as [(s & _ & _ & Hr) | (e' & Hr)]; unfold updateDoc in E |- *;
        rewrite Hr in E |- *; [discriminate | reflexivity].
  - intros code c w'. subst w'. unfold clearCurrentRound. fold c.
    destruct (updateDoc_effect env (roomPath c) (roomUpdate VNull) w)
      as (Hdom & Hu & _ & Hnone & _).
    auto.
Qed.

Lemma updates_never_create_witness :
  docs (snd (revealRound Sample.env "J6J6" "round-H" Scenario.shown)) = docs Scenario.shown
  /\ exists e, fst (revealRound Sample.env "J6J6" "no-round" Scenario.shown) = Err e.
Proof.
  destruct (updates_never_create Sample.env (signedIn "host" Scenario.voted)) as [H _].
  split.
  - destruct (H "J6J6" "round-H") as (_ & _ & _ & Htwice).
    apply Htwice. vm_compute. reflexivity.
  - destruct (updates_never_create Sample.env Scenario.shown) as [H' _].
    destruct (H' "J6J6" "no-round") as (_ & _ & Hnone & _).
    apply Hnone. vm_compute. reflexivity.
Defined.

(** ** Votes are not guarded by the access layer *)

(** X11. [castVote] succeeds whenever the store accepts the write: it
    checks neither that the round exists nor that it is still hidden. The
    caller's vote document becomes the new vote, also on a revealed round
    (which stays revealed); the round document is neither created nor
    changed, and no other document changes. *)
Theorem castVote_unguarded (env : Env) (code roundId : string) (value : number)
    (w : World) (uid : string) :
  let c := normalizeRoomCode env code in
  let w' := snd (castVote env code roundId value w) in
  currentUser w = Some uid ->
  verdict env (ticks w) (docs w) (WSet (votePath c roundId uid) (voteDoc uid value)) = None ->
  fst (castVote env code roundId value w) = Ok tt
  /\ docs w' !! votePath c roundId uid
     = Some (resolve (now env (ticks w)) <$> voteDoc uid value)
  /\ docs w' !! roundPath c roundId = docs w !! roundPath c roundId
  /\ (revealedRound (docs w) c roundId -> revealedRound (docs w') c roundId)
  /\ (forall q, q <> votePath c roundId uid -> docs w' !! q = docs w !! q).
Proof.
  intros c w' Hu Hv. subst w'.
  unfold castVote, bind, ensureAnonAuth, setDoc, request. fold c.
  rewrite Hu. cbv beta iota. rewrite Hv. cbn [commit fst snd docs committed].
  split; [reflexivity |]. split; [apply lookup_insert_eq |].
  assert (forall q, q <> votePath c roundId uid ->
                    <[votePath c roundId uid :=
                        resolve (now env (ticks w)) <$> voteDoc uid value]> (docs w) !! q
                    = docs w !! q) as Hframe
    by (intros q Hq; now apply lookup_insert_ne).
  split; [now apply Hframe |]. split; [|exact Hframe].
  intros (d & Hd & Hr). exists d. split; [|exact Hr].
  now rewrite Hframe.
Qed.

Lemma castVote_unguarded_witness :
  fst (castVote Sample.env "J6J6" "round-H" (ofZ 13) (signedIn "bo" Scenario.shown)) = Ok tt
  /\ revealedRound
       (docs (snd (castVote Sample.env "J6J6" "round-H" (ofZ 13)
                     (signedIn "bo" Scenario.shown))))
       "J6J6" "round-H".
Proof.
  destruct (castVote_unguarded Sample.env "J6J6" "round-H" (ofZ 13)
              (signedIn "bo" Scenario.shown) "bo") as (Hok & _ & _ & Hrev & _).
  - reflexivity.
  - vm_compute. reflexivity.
  - split; [exact Hok |]. apply Hrev. vm_compute. eexists. split; reflexivity.
Defined.

(** ** The room screen *)

Section RoomScreenProperties.
Import RoomView RoomScreen.

Lemma messageOr_shown (e fallback : string) :
  fallback <> "" ->
  messageOr e fallback <> "" /\ (e <> "" -> messageOr e fallback = e).
Proof.
  intros Hf. unfold messageOr, JsString.orElse. destruct e; [tauto |].
  split; [discriminate | reflexivity].
Qed.

(** X12. After [createRoom], a room screen that has received the room
    document takes as host the user who created the room, provided that
    uid is not empty, and nobody else; for everybody else starting a
    round, revealing and resetting do nothing at all: no request is sent
    and the screen stays as it is. *)
Theorem only_creator_is_host (env : Env) (name : string) (w w' : World) (code : string) :
  createRoom env name w = (Ok code, w') ->
  exists creator,
    currentUser w' = Some creator
    /\ forall s : Screen,
        let s' := setView (onRoomSnapshot (docs w' !! roomPath code) (view s)) s in
        (isOwner s' = true <-> uid s = Some creator /\ creator <> "")
        /\ (uid s <> Some creator ->
            forall env' c w0,
              onStartRound env' c s' w0 = (s', w0)
              /\ onReveal env' c s' w0 = (s', w0)
              /\ onReset env' c s' w0 = (s', w0)).
Proof.
  intros H. unfold createRoom, bind in H.
  destruct (ensureAnonAuth_cases env w) as [(creator & Ha & _) | (e & Ha)];
    rewrite Ha in H; [|discriminate].
  apply createRoom_from_ok in H as (_ & _ & Hu & _ & t & _ & _ & _ & Hr & _).
  exists creator. split; [exact Hu |]. intros s s'.
  assert (isOwner s' = true <-> uid s = Some creator /\ creator <> "") as Hown.
  { subst s'. unfold isOwner. rewrite Hr. cbn [onRoomSnapshot setView view room uid].
    rewrite lookup_fmap.
    change (roomDoc code creator !! "createdBy") with (Some (VStr creator)).
    cbn [fmap option_fmap option_map resolve].
    destruct (uid s) as [u|]; [|split; [discriminate | intros [? _]; discriminate]].
    destruct (String.eqb_spec u "") as [->|Hne].
    - split; [discriminate |]. intros [[= <-] Hc]. now contradiction Hc.
    - destruct (String.eqb_spec creator u) as [->|Hcu].
      + split; auto.
      + split; [discriminate |]. intros [[= ->] _]. now contradiction Hcu. }
  split; [exact Hown |].
  intros Hother env' c w0.
  assert (isOwner s' = false) as Hno.
  { apply not_true_is_false. intros E. apply Hown in E as [E _]. contradiction. }
  unfold onStartRound, onReveal, onReset. rewrite Hno. cbn [negb].
  repeat split. now destruct (round (view s')) as [[? ?]|].
Qed.

Lemma only_creator_is_host_witness :
  exists creator,
    currentUser Scenario.room1 = Some creator
    /\ creator = "host".
Proof.
  destruct (only_creator_is_host Sample.env "Ann" (signedIn "host" Sample.world0)
              Scenario.room1 "J6J6") as (creator & Hc & _).
  - vm_compute. reflexivity.
  - exists creator. split; [exact Hc |]. vm_compute in Hc. now injection Hc.
Defined.

(** X13. The screen sends a vote only for a round it holds and has not
    seen revealed: without a round, and once the round listener has
    delivered a round document that the store holds as revealed, [onVote]
    sends no request and leaves the screen as it is; otherwise the world
    after it is the world after [castVote] for the round the view holds. *)
Theorem onVote_guarded (env : Env) (code : string) (x : number) (s : Screen) (w : World) :
  (round (view s) = None -> onVote env code x s w = (s, w))
  /\ (forall c roundId w0,
        revealedRound (docs w0) c roundId ->
        let s' := setView (onRoundSnapshot roundId (docs w0 !! roundPath c roundId)
                             (view s)) s in
        onVote env code x s' w = (s', w))
  /\ (forall roundId d,
        round (view s) = Some (roundId, d) -> revealed (view s) = false ->
        snd (onVote env code x s w) = snd (castVote env code roundId x w)).
Proof.
  split; [|split].
  - intros H. unfold onVote. now rewrite H.
  - intros c roundId w0 (d & Hd & Hr) s'. subst s'.
    unfold onVote, revealed. cbn [view setView onRoundSnapshot round].
    rewrite Hd, Hr. reflexivity.
  - intros roundId d Hround Hrev. unfold onVote. rewrite Hround, Hrev.
    now destruct (castVote env code roundId x w) as [[[]|e] w1].
Qed.

(** X14. For the host, each action of the screen leaves the world that the
    operation behind it leaves, clears the error on success and shows a
    message that is never empty on failure (the message of the error, or
    the fallback of the action when the error has none): starting a round
    also empties the ticket field, a reset also drops the round and the
    votes of the view. Leaving navigates to the lobby whatever [leaveRoom]
    did. *)
Theorem actions_surface_errors (env : Env) (code : string) (s : Screen) (w : World) :
  isOwner s = true ->
  (let r := startRound env code (ticket s) w in
   let s' := fst (onStartRound env code s w) in
   snd (onStartRound env code s w) = snd r
   /\ match fst r with
      | Ok _ => err (view s') = None /\ ticket s' = ""
      | Err e => (exists m, err (view s') = Some m /\ m <> "" /\ (e <> "" -> m = e))
                 /\ ticket s' = ticket s
      end)
  /\ (forall roundId d,
        round (view s) = Some (roundId, d) ->
        let r := revealRound env code roundId w in
        let s' := fst (onReveal env code s w) in
        snd (onReveal env code s w) = snd r
        /\ match fst r with
           | Ok _ => err (view s') = None
           | Err e => exists m, err (view s') = Some m /\ m <> "" /\ (e <> "" -> m = e)
           end)
  /\ (let r := clearCurrentRound env code w in
      let s' := fst (onReset env code s w) in
      snd (onReset env code s w) = snd r
      /\ match fst r with
         | Ok _ => err (view s') = None /\ round (view s') = None /\ votes (view s') = []
         | Err e => (exists m, err (view s') = Some m /\ m <> "" /\ (e <> "" -> m = e))
                    /\ round (view s') = round (view s)
                    /\ votes (view s') = votes (view s)
         end)
  /\ (route (fst (onLeave env code s w)) = Some (ToLobby None)
      /\ snd (onLeave env code s w) = snd (leaveRoom env code w)).
Proof.
  intros Hown. split; [|split; [|split]].
  - unfold onStartRound. rewrite Hown. cbn [negb].
    destruct (startRound env code (ticket s) w) as [[id|e] w1]; cbn [fst snd].
    + repeat split.
    + split; [reflexivity |]. split; [|reflexivity].
      eexists. split; [reflexivity |]. now apply messageOr_shown.
  - intros roundId d Hround. unfold onReveal. rewrite Hround, Hown. cbn [negb].
    destruct (revealRound env code roundId w) as [[[]|e] w1]; cbn [fst snd].
    + repeat split.
    + split; [reflexivity |].
      eexists. split; [reflexivity |]. now apply messageOr_shown.
  - unfold onReset. rewrite Hown. cbn [negb].
    destruct (clearCurrentRound env code w) as [[[]|e] w1]; cbn [fst snd].
    + repeat split.
    + split; [reflexivity |]. split; [|split; reflexivity].
      eexists. split; [reflexivity |]. now apply messageOr_shown.
  - split; reflexivity.
Qed.

End RoomScreenProperties.

Lemma actions_surface_errors_witness :
  RoomScreen.ticket
    (fst (RoomScreen.onStartRound Sample.env "J6J6" ScreenScenario.hostScreen
            (signedIn "host" Scenario.joined))) = ""
  /\ snd (RoomScreen.onStartRound Sample.env "J6J6" ScreenScenario.hostScreen
            (signedIn "host" Scenario.joined))
     = snd (startRound Sample.env "J6J6" " AUTH-123" (signedIn "host" Scenario.joined)).
Proof.
  destruct (actions_surface_errors Sample.env "J6J6" ScreenScenario.hostScreen
              (signedIn "host" Scenario.joined)) as ((Hw & Hs) & _).
  - vm_compute. reflexivity.
  - split; [|exact Hw].
    assert (fst (startRound Sample.env "J6J6"
                   (RoomScreen.ticket ScreenScenario.hostScreen)
                   (signedIn "host" Scenario.joined)) = Ok "round-H") as E
      by (vm_compute; reflexivity).
    rewrite E in Hs. apply Hs.
Defined.

(** ** The view without a room or a round *)

Section ViewProperties.
Import RoomView Mean.

(** X16. When the room document is gone, the room listener reports the
    room as unavailable and the round effect then drops the round and the
    votes; the same happens for a room whose [currentRoundId] is null,
    missing or the empty string, and for an empty code. A view without a
    round shows no summary, whatever votes it still holds. *)
Theorem room_unavailable_clears (code : string) (v : View) :
  (let v' := roundEffect code (onRoomSnapshot None v) in
   room v' = None /\ round v' = None /\ votes v' = []
   /\ err v' = Some "Room not found or you do not have access."
   /\ participants v' = participants v
   /\ viewSummary v' = None)
  /\ (forall data,
        data !! "currentRoundId" = None
        \/ data !! "currentRoundId" = Some VNull
        \/ data !! "currentRoundId" = Some (VStr "") ->
        let v' := roundEffect code (onRoomSnapshot (Some data) v) in
        round v' = None /\ votes v' = [] /\ viewSummary v' = None)
  /\ (let v' := roundEffect "" v in round v' = None /\ votes v' = [])
  /\ (round (roundEffect code v) <> None ->
      code <> "" /\ truthy (currentRoundId v) = true /\ roundEffect code v = v)
  /\ (round v = None -> viewSummary v = None).
Proof.
  split; [|split; [|split; [|split]]].
  - unfold roundEffect, currentRoundId. cbn [onRoomSnapshot room truthy negb].
    rewrite orb_true_r. repeat split.
  - intros data H v'. subst v'. unfold roundEffect, currentRoundId.
    cbn [onRoomSnapshot room].
    assert (truthy (data !! "currentRoundId") = false) as ->
      by (destruct H as [-> | [-> | ->]]; reflexivity).
    cbn [negb]. rewrite orb_true_r. repeat split.
  - repeat split.
  - unfold roundEffect. destruct (String.eqb_spec code "") as [->|Hne]; cbn [orb].
    + intros H. now contradiction H.
    + destruct (truthy (currentRoundId v)); cbn [negb]; [tauto |].
      intros H. now contradiction H.
  - intros H. unfold viewSummary, revealed. now rewrite H.
Qed.

Lemma mapGet_mapSet {A} (m : JsMap A) (k k' : string) (x : A) :
  mapGet (mapSet m k x) k' = if String.eqb k k' then Some x else mapGet m k'.
Proof.
  induction m as [|[k0 x0] m IH]; simpl.
  - reflexivity.
  - destruct (String.eqb_spec k0 k) as [->|Hne]; simpl.
    + destruct (String.eqb k k'); reflexivity.
    + rewrite IH. destruct (String.eqb_spec k0 k') as [->|Hne'].
      * destruct (String.eqb_spec k k'); [congruence | reflexivity].
      * reflexivity.
Qed.

Lemma fold_mapSet_get {A B} (f : B -> A) (snap : list (string * B)) (m : JsMap A)
    (k : string) :
  NoDup snap.*1 ->
  (forall b, (k, b) ∈ snap ->
             mapGet (fold_left (fun acc d => mapSet acc (fst d) (f (snd d))) snap m) k
             = Some (f b))
  /\ (k ∉ snap.*1 ->
      mapGet (fold_left (fun acc d => mapSet acc (fst d) (f (snd d))) snap m) k
      = mapGet m k).
Proof.
  revert m. induction snap as [|[k0 b0] snap IH]; intros m Hnd.
  - split; [intros b Hb; now apply elem_of_nil in Hb | reflexivity].
  - rewrite fmap_cons in Hnd. apply NoDup_cons in Hnd as [Hk0 Hnd]. cbn [fst] in Hk0.
    cbn [fold_left fst snd].
    destruct (IH (mapSet m k0 (f b0)) Hnd) as [Hin Hout]. split.
    + intros b Hb. apply elem_of_cons in Hb as [[= -> ->] | Hb].
      * rewrite (Hout Hk0), mapGet_mapSet. now rewrite String.eqb_refl.
      * now apply Hin.
    + intros Hk. rewrite fmap_cons in Hk. apply not_elem_of_cons in Hk as [Hne Hk].
      cbn [fst] in Hne. rewrite (Hout Hk), mapGet_mapSet.
      destruct (String.eqb_spec k0 k); [congruence | reflexivity].
Qed.

Lemma asVoteDoc_voteDoc (t : nat) (u : string) (x : number) :
  asVoteDoc (resolve t <$> voteDoc u x)
  = {| uid := u; value := x; createdAt := VTime t |}.
Proof. unfold asVoteDoc. rewrite !lookup_fmap. reflexivity. Qed.

(** X17. The votes map the votes listener builds holds, under each key of
    the collection, the vote document stored under that key, and nothing
    under any other key; a vote written by [castVote] is read back as it
    was cast. So once a vote of the signed-in user has been accepted and
    the snapshot of the round's votes has arrived, [myVote] is the value
    that was cast. *)
Theorem votes_map_mirrors_collection (coll : gmap string (gmap string Value)) (v : View) :
  (forall u,
      mapGet (votes (onVotesSnapshot (map_to_list coll) v)) u = asVoteDoc <$> coll !! u)
  /\ (forall env code roundId x w u s,
        currentUser w = Some u -> u <> "" ->
        fst (castVote env code roundId x w) = Ok tt ->
        coll = docsIn (votesPath (normalizeRoomCode env code) roundId)
                 (docs (snd (castVote env code roundId x w))) ->
        RoomScreen.uid s = Some u ->
        RoomScreen.myVote
          (RoomScreen.setView (onVotesSnapshot (map_to_list coll) (RoomScreen.view s)) s)
        = Some x).
Proof.
  assert (forall v0 u,
             mapGet (votes (onVotesSnapshot (map_to_list coll) v0)) u
             = asVoteDoc <$> coll !! u) as Hget.
  { intros v0 u. cbn [onVotesSnapshot votes].
    destruct (fold_mapSet_get asVoteDoc (map_to_list coll) [] u
                (NoDup_fst_map_to_list coll)) as [Hin Hout].
    destruct (coll !! u) as [d|] eqn:E.
    - apply elem_of_map_to_list in E. now rewrite (Hin d E).
    - rewrite Hout; [reflexivity |].
      intros Hu. apply list_elem_of_fmap in Hu as ([k d] & -> & Hd).
      apply elem_of_map_to_list in Hd. cbn [fst] in E. congruence. }
  split; [apply Hget |].
  intros env code roundId x w u s Hu Hne Hok -> Hs.
  unfold RoomScreen.myVote. cbn [RoomScreen.setView RoomScreen.uid RoomScreen.view].
  rewrite Hs. destruct (String.eqb_spec u "") as [->|_]; [now contradiction Hne |].
  rewrite Hget, lookup_docsIn.
  unfold castVote, bind, ensureAnonAuth, setDoc in Hok |- *. rewrite Hu in Hok |- *.
  cbv beta iota in Hok |- *.
  destruct (request_cases env
              (WSet (votePath (normalizeRoomCode env code) roundId u) (voteDoc u x)) w)
    as [(s1 & Hc & _ & Hr) | (e & Hr)]; rewrite Hr in Hok |- *; [|discriminate].
  cbn [commit] in Hc. injection Hc as <-. cbn [snd docs committed].
  change (votesPath (normalizeRoomCode env code) roundId ++ [u])
    with (votePath (normalizeRoomCode env code) roundId u).
  rewrite lookup_insert_eq. cbn [fmap option_fmap option_map].
  now rewrite asVoteDoc_voteDoc.
Qed.

End ViewProperties.

Lemma votes_map_mirrors_collection_witness :
  RoomScreen.myVote
    (RoomScreen.setView
       (RoomView.onVotesSnapshot
          (map_to_list (docsIn (votesPath "J6J6" "round-H") (docs Scenario.voted)))
          ScreenScenario.blankView)
       {| RoomScreen.view := ScreenScenario.blankView; RoomScreen.uid := Some "bo";
          RoomScreen.ticket := ""; RoomScreen.route := None |})
  = Some (ofZ 5).
Proof.
  apply (proj2 (votes_map_mirrors_collection
                  (docsIn (votesPath "J6J6" "round-H") (docs Scenario.voted))
                  ScreenScenario.blankView)
           Sample.env "J6J6" "round-H" (ofZ 5)
           (signedIn "bo" (snd (castVote Sample.env "J6J6" "round-H" (ofZ 3)
                                  Scenario.round1)))
           "bo").
  - reflexivity.
  - discriminate.
  - vm_compute. reflexivity.
  - reflexivity.
  - reflexivity.
Defined.

(** ** The lobby *)

Section LobbyProperties.
Import HomeScreen.

Lemma canProceed_name (h : Home) :
  canProceed h = true ->
  JsString.trim (name h) <> "" /\ storedName (name h) = JsString.trim (name h).
Proof.
  unfold canProceed. intros H.
  assert (JsString.trim (name h) <> "") as Hne.
  { intros E. rewrite E in H. discriminate. }
  split; [exact Hne |]. unfold storedName.
  destruct (JsString.blank (name h)) eqn:B; [|reflexivity].
  apply trim_empty_iff in B. contradiction.
Qed.

(** X15. With a blank name the two actions of the lobby only clear the
    error: no operation is called, nothing is saved, nothing is navigated.
    With any other name they save the trimmed name, call the operation
    ([joinRoom] with the normalized code), and end not busy; on success
    they navigate to the room of the code as an in-app navigation, which
    the room screen does not send back to the lobby, and the participant
    document carries the trimmed name (the "Guest" fallback is not used);
    on failure they stay, with a message that is never empty. *)
Theorem lobby_actions (env : Env) (h : Home) (w : World) :
  (canProceed h = false ->
   onCreate env h w = (clearErr h, w) /\ onJoin env h w = (clearErr h, w))
  /\ (canProceed h = true ->
      JsString.trim (name h) <> ""
      /\ (let r := createRoom env (name h) w in
          let h' := fst (onCreate env h w) in
          snd (onCreate env h w) = snd r
          /\ busy h' = false
          /\ savedName h' = Some (JsString.trim (name h))
          /\ match fst r with
             | Ok code =>
                 route h' = Some (ToRoom code true) /\ err h' = None
                 /\ (forall s, RoomScreen.deepLinkEffect code true s = s)
                 /\ exists uid p,
                     currentUser (snd r) = Some uid
                     /\ docs (snd r) !! participantPath code uid = Some p
                     /\ p !! "name" = Some (VStr (JsString.trim (name h)))
             | Err e =>
                 route h' = route h
                 /\ exists m, err h' = Some m /\ m <> "" /\ (e <> "" -> m = e)
             end)
      /\ (let c := normalizeRoomCode env (code h) in
          let r := joinRoom env c (name h) w in
          let h' := fst (onJoin env h w) in
          snd (onJoin env h w) = snd r
          /\ busy h' = false
          /\ savedName h' = Some (JsString.trim (name h))
          /\ match fst r with
             | Ok _ =>
                 route h' = Some (ToRoom c true) /\ err h' = None
                 /\ exists uid p,
                     currentUser (snd r) = Some uid
                     /\ docs (snd r) !! participantPath (normalizeRoomCode env c) uid
                        = Some p
                     /\ p !! "name" = Some (VStr (JsString.trim (name h)))
             | Err e =>
                 route h' = route h
                 /\ exists m, err h' = Some m /\ m <> "" /\ (e <> "" -> m = e)
             end)).
Proof.
  split.
  - intros H. unfold onCreate, onJoin. rewrite H. split; reflexivity.
  - intros H. destruct (canProceed_name h H) as [Hne Hname].
    split; [exact Hne |]. split.
    + unfold onCreate. rewrite H. cbn [negb].
      destruct (createRoom env (name h) w) as [[code|e] w1] eqn:E; cbn [fst snd finish].
      * split; [reflexivity |]. split; [reflexivity |]. split; [reflexivity |].
        split; [reflexivity |]. split; [reflexivity |]. split; [reflexivity |].
        unfold createRoom, bind in E.
        destruct (ensureAnonAuth_cases env w) as [(uid & Ha & _) | (e & Ha)];
          rewrite Ha in E; [|discriminate].
        apply createRoom_from_name in E as (Hu & p & Hp & Hn).
        exists uid, p. rewrite <- Hname. auto.
      * split; [reflexivity |]. split; [reflexivity |]. split; [reflexivity |].
        split; [reflexivity |].
        eexists. split; [reflexivity |]. now apply messageOr_shown.
    + unfold onJoin. rewrite H. cbn [negb].
      destruct (joinRoom env (normalizeRoomCode env (code h)) (name h) w)
        as [[[]|e] w1] eqn:E; cbn [fst snd finish].
      * split; [reflexivity |]. split; [reflexivity |]. split; [reflexivity |].
        split; [reflexivity |]. split; [reflexivity |].
        unfold joinRoom, bind, catch, setDocMerge, throw in E.
        destruct (ensureAnonAuth_cases env w) as [(uid & Ha & _) | (e & Ha)];
          rewrite Ha in E; cbv beta iota in E; [|discriminate].
        step_request; [|destruct (JsString.includes e permissionDenied); discriminate].
        injection E as <-. cbn [commit] in Hcommit. injection Hcommit as <-.
        exists uid. eexists. cbn [currentUser docs committed signedIn].
        split; [reflexivity |]. split; [apply lookup_insert_eq |].
        rewrite <- Hname. apply participantDoc_name.
      * split; [reflexivity |]. split; [reflexivity |]. split; [reflexivity |].
        split; [reflexivity |].
        eexists. split; [reflexivity |]. now apply messageOr_shown.
Qed.

Lemma lobby_actions_witness :
  HomeScreen.route (fst (onJoin Sample.env ScreenScenario.lobby (signedIn "bo" Scenario.room1)))
  = Some (ToRoom "J6J6" true).
Proof.
  destruct (lobby_actions Sample.env ScreenScenario.lobby (signedIn "bo" Scenario.room1))
    as [_ H].
  destruct H as (_ & _ & _ & _ & _ & Hj); [reflexivity |].
  assert (fst (joinRoom Sample.env
                 (normalizeRoomCode Sample.env (code ScreenScenario.lobby))
                 (name ScreenScenario.lobby) (signedIn "bo" Scenario.room1)) = Ok tt) as E
    by (vm_compute; reflexivity).
  rewrite E in Hj. apply Hj.
Defined.

End LobbyProperties.

(** ** From the store to the view *)

Section StoreToView.
Import RoomView Mean.

(** X18. After a successful [startRound] with a non-empty id, a view with a
    non-empty code that receives the room document keeps its round
    subscription (the round effect clears nothing), and once the round
    document arrives it holds the new round under its id, with the trimmed
    ticket, not revealed: it shows no summary. *)
Theorem started_round_is_open (env : Env) (code ticket : string) (w w' : World)
    (id : string) :
  startRound env code ticket w = (Ok id, w') ->
  id <> "" ->
  let c := normalizeRoomCode env code in
  forall viewCode v,
    viewCode <> "" ->
    let v1 := onRoomSnapshot (docs w' !! roomPath c) v in
    let v2 := onRoundSnapshot id (docs w' !! roundPath c id) (roundEffect viewCode v1) in
    roundEffect viewCode v1 = v1
    /\ currentRoundId v1 = Some (VStr id)
    /\ (exists d, round v2 = Some (id, d)
                  /\ d !! "ticket" = Some (VStr (JsString.trim ticket))
                  /\ d !! "revealed" = Some (VBool false))
    /\ revealed v2 = false
    /\ viewSummary v2 = None.
Proof.
  intros H Hid c viewCode v Hcode v1 v2.
  pose proof (startRound_cases env code ticket w) as Hcases.
  cbv zeta in Hcases. fold c in Hcases.
  destruct Hcases
    as [(e & H') | [(uid & e & _ & H') | [(uid & e & i & t & _ & _ & _ & H')
                                        | (uid & i & t & t' & rm & _ & _ & _ & _ & H')]]];
    rewrite H' in H; try discriminate.
  injection H as -> <-. cbn [docs committed] in v1, v2.
  assert (currentRoundId v1 = Some (VStr id)) as Hcur.
  { subst v1. unfold currentRoundId. rewrite lookup_insert_eq. cbn [onRoomSnapshot room].
    apply lookup_union_Some_l. now rewrite lookup_fmap. }
  assert (roundEffect viewCode v1 = v1) as Heff.
  { unfold roundEffect. rewrite Hcur. cbn [truthy].
    destruct (String.eqb_spec viewCode "") as [->|_]; [now contradiction Hcode |].
    destruct (String.eqb_spec id "") as [->|_]; [now contradiction Hid |]. reflexivity. }
  split; [exact Heff |]. split; [exact Hcur |].
  subst v2. rewrite Heff.
  rewrite lookup_insert_ne by discriminate. rewrite lookup_insert_eq.
  cbn [onRoundSnapshot round]. split; [|split].
  - exists (resolve t <$> roundDoc uid ticket).
    split; [reflexivity |]. rewrite !lookup_fmap. split; reflexivity.
  - unfold revealed. cbn [round]. now rewrite ?lookup_fmap.
  - unfold viewSummary, revealed. cbn [round]. now rewrite ?lookup_fmap.
Qed.

Lemma started_round_is_open_witness :
  revealed
    (onRoundSnapshot "round-H" (docs Scenario.round1 !! roundPath "J6J6" "round-H")
       (roundEffect "J6J6"
          (onRoomSnapshot (docs Scenario.round1 !! roomPath "J6J6")
             ScreenScenario.blankView)))
  = false.
Proof.
  destruct (started_round_is_open Sample.env "J6J6" "AUTH-123"
              (signedIn "host" Scenario.joined) Scenario.round1 "round-H")
    with (viewCode := "J6J6") (v := ScreenScenario.blankView)
    as (_ & _ & _ & H & _).
  - vm_compute. reflexivity.
  - discriminate.
  - discriminate.
  - exact H.
Defined.

(** X19. After a successful [revealRound], a view that receives the round
    document and the votes of the round shows a summary whose count is the
    number of vote documents stored under the round, which the reveal has
    not changed; its average is absent exactly when no vote is stored. *)
Theorem revealed_round_is_summarised (env : Env) (code roundId : string) (w w' : World) :
  revealRound env code roundId w = (Ok tt, w') ->
  let c := normalizeRoomCode env code in
  let stored := docsIn (votesPath c roundId) (docs w') in
  forall v,
    let v' := onVotesSnapshot (map_to_list stored)
                (onRoundSnapshot roundId (docs w' !! roundPath c roundId) v) in
    stored = docsIn (votesPath c roundId) (docs w)
    /\ revealed v' = true
    /\ exists s, viewSummary v' = Some s
                 /\ count s = size stored
                 /\ (avg s = None <-> stored = ∅).
Proof.
  intros H c stored v v'.
  unfold revealRound, updateDoc in H. fold c in H.
  apply request_ok in H as (_ & s1 & Hc & ->). cbn [commit] in Hc.
  destruct (docs w !! roundPath c roundId) as [old|] eqn:Hold; [|discriminate].
  injection Hc as <-. cbn [docs committed] in stored, v'.
  assert (stored = docsIn (votesPath c roundId) (docs w)) as Hstored.
  { subst stored. apply docsIn_insert_other. intros id. discriminate. }
  split; [exact Hstored |].
  assert (revealed v' = true) as Hrev.
  { subst v'. unfold revealed. cbn [onVotesSnapshot onRoundSnapshot round].
    rewrite lookup_insert_eq.
    rewrite (lookup_union_Some_l _ _ _ (VBool true)); [reflexivity |].
    now rewrite lookup_fmap. }
  split; [exact Hrev |].
  assert (mapSize (votes v') = size stored) as Hsize
    by (subst v'; apply onVotesSnapshot_size).
  clearbody v'. unfold viewSummary. rewrite Hrev, summary_revealed.
  eexists. split; [reflexivity |]. cbn [count avg].
  split; [exact Hsize |].
  unfold mapSize in Hsize. destruct (votes v') as [|x xs].
  - split; [|reflexivity]. intros _. now apply map_size_empty_iff.
  - split; [discriminate |]. intros He. rewrite He in Hsize. discriminate.
Qed.

Lemma revealed_round_is_summarised_witness :
  exists s,
    viewSummary
      (onVotesSnapshot
         (map_to_list (docsIn (votesPath "J6J6" "round-H") (docs Scenario.shown)))
         (onRoundSnapshot "round-H" (docs Scenario.shown !! roundPath "J6J6" "round-H")
            ScreenScenario.blankView))
    = Some s
    /\ count s = 2.
Proof.
  destruct (revealed_round_is_summarised Sample.env "J6J6" "round-H"
              (signedIn "host" Scenario.voted) Scenario.shown)
    with (v := ScreenScenario.blankView) as (_ & _ & s & Hs & Hc & _).
  - vm_compute. reflexivity.
  - exists s. split; [exact Hs |]. rewrite Hc. vm_compute. reflexivity.
Defined.

End StoreToView.
